(** * FastAPI_Practice: the authorization pipeline and the repositories

    A shallow embedding of the request authorization and scope-enforcement
    pipeline of the service ([app/core/security.py],
    [app/core/dependencies.py], [app/api/v1/auth.py]), of the SQL
    repositories ([app/core/repositories.py], [app/db/models.py]) and of
    the cache-invalidating item endpoints ([app/api/v2/items.py]).

    Conventions of the embedding.
    - An [async] function that reads or writes the relational store is a
      function of the store: it takes a [Database] and returns its outcome
      together with the store it leaves behind. Every repository method
      commits before it returns; a method that raises before its commit
      leaves the store as it found it.
    - A Python exception is a value of [exn]; a call that may raise returns
      a [result].
    - Wall-clock readings are whole seconds since the epoch ([Z]), the
      resolution at which the token library writes and compares the
      [exp] claim.
    - A Python [float] is a binary64 float ([PrimFloat.float]); the code
      only stores and copies prices.
    - [Field(...)] bounds of the pydantic models (lengths, [ge=0]) are
      checked on request bodies before a handler runs and are not
      modelled; the types of the fields are.
    - The keyed hash behind HS256 and the bcrypt context are parameters
      ([Primitives]); nothing is assumed about them. The bcrypt context
      may raise: it refuses some secrets (one that holds a NUL character,
      for instance) and does not identify every stored text as a hash.
    - The store is SQLite: an integer bound to a statement has 64 bits,
      and the driver raises [OverflowError] for a Python [int] outside
      that range before the statement runs. *)

From Stdlib Require Import ZArith String Ascii List Floats.
From stdpp Require Import base option list gmap strings.

Local Open Scope Z_scope.
Local Open Scope string_scope.

(** ** Exceptions and results *)

(** The exceptions that cross function boundaries in the modelled code.
    [HTTPException] carries FastAPI's [status_code], [detail] and
    [headers] (a dict, or [None] when the constructor is given none). *)
Inductive exn : Type :=
  | HTTPException (status_code : Z) (detail : string)
                  (headers : option (gmap string string))
  | ValueError (msg : string)
  | IntegrityError          (* sqlalchemy.exc.IntegrityError *)
  | ValidationError         (* pydantic.ValidationError *)
  | OverflowError.          (* an int too large for an SQLite INTEGER *)

Inductive result (A : Type) : Type :=
  | Ok (a : A)
  | Raise (e : exn).
Arguments Ok {A} a.
Arguments Raise {A} e.

#[export] Instance result_ret : MRet result := fun _ a => Ok a.
#[export] Instance result_bind : MBind result := fun _ _ f m =>
  match m with
  | Ok a => f a
  | Raise e => Raise e
  end.
#[export] Instance result_fmap : FMap result := fun _ _ f m =>
  match m with
  | Ok a => Ok (f a)
  | Raise e => Raise e
  end.

(** The status a client sees: an [HTTPException] answers with its own
    status code; any other exception that leaves a handler is answered by
    [handle_generic_500_exception] ([app/core/errors.py]). *)
Definition response_status (e : exn) : Z :=
  match e with
  | HTTPException status_code _ _ => status_code
  | _ => 500
  end.

(** [exc.headers.get(name)] on an exception, [None] for the other kinds. *)
Definition response_header (e : exn) (name : string) : option string :=
  match e with
  | HTTPException _ _ (Some headers) => headers !! name
  | _ => None
  end.

Definition HTTP_400_BAD_REQUEST : Z := 400.
Definition HTTP_401_UNAUTHORIZED : Z := 401.
Definition HTTP_403_FORBIDDEN : Z := 403.
Definition HTTP_404_NOT_FOUND : Z := 404.

(** ** Pydantic models ([app/models/user.py], [app/models/item.py]) *)

Module UserCreate.
Record t : Type := mk {
  username : string;
  full_name : option string;
  email : option string;
  is_active : bool;
  scopes : list string;
  password : string
}.
End UserCreate.

Module UserRead.
Record t : Type := mk {
  id : Z;
  username : string;
  full_name : option string;
  email : option string;
  is_active : bool;
  scopes : list string
}.
End UserRead.

Module UserInDB.
Record t : Type := mk {
  username : string;
  full_name : option string;
  email : option string;
  is_active : bool;
  scopes : list string;
  hashed_password : string
}.
End UserInDB.

Module ItemCreate.
Record t : Type := mk {
  name : string;
  description : option string;
  price : float;
  tags : list string;
  in_stock : bool
}.
End ItemCreate.

Module ItemRead.
Record t : Type := mk {
  name : string;
  description : option string;
  price : float;
  tags : list string;
  in_stock : bool;
  id : Z;
  created_at : Z
}.
End ItemRead.

(** A field of a partial-update payload is either left out of the request
    body ([Absent], not in pydantic's [model_fields_set]) or given
    ([Present]); every field of [ItemUpdate] has type [T | None], so a
    given value may itself be [None] (JSON null). *)
Inductive field (A : Type) : Type :=
  | Absent
  | Present (v : A).
Arguments Absent {A}.
Arguments Present {A} v.

Module ItemUpdate.
Record t : Type := mk {
  name : field (option string);
  description : field (option string);
  price : field (option float);
  tags : field (option (list string));
  in_stock : field (option bool)
}.
End ItemUpdate.

(** ** ORM classes and the relational store ([app/db/models.py]) *)

Module Users.
(** A row of table [users]. [username] is declared [unique=True]. *)
Record t : Type := mk {
  id : Z;
  username : string;
  full_name : option string;
  email : option string;
  is_active : bool;
  scopes : list string;
  hashed_password : string
}.
End Users.

Module Items.
(** A mapped [Items] instance as Python holds it: [setattr] can leave
    [None] in any attribute. *)
Record t : Type := mk {
  id : Z;
  name : option string;
  description : option string;
  price : option float;
  tags : option (list string);
  in_stock : option bool;
  created_at : Z
}.

(** A row of table [items]. Columns [name], [price] and [in_stock] are
    NOT NULL ([Mapped[str]], [Mapped[float]], [nullable=False]);
    [description] is nullable ([Mapped[Optional[str]]]); [tags] is a JSON
    column: it holds a JSON value, and a Python [None] is written to it
    as the JSON value null, which is not SQL NULL ([None] below). *)
Record row : Type := mk_row {
  row_id : Z;
  row_name : string;
  row_description : option string;
  row_price : float;
  row_tags : option (list string);
  row_in_stock : bool;
  row_created_at : Z
}.

(** Loading a row into an instance ([session.get], [session.refresh]). *)
Definition load (r : row) : t :=
  {| id := row_id r;
     name := Some (row_name r);
     description := row_description r;
     price := Some (row_price r);
     tags := row_tags r;
     in_stock := Some (row_in_stock r);
     created_at := row_created_at r |}.

(** Writing an instance back ([session.flush]): the statement is refused
    when a NOT NULL column would receive NULL. *)
Definition store (obj : t) : option row :=
  match name obj, price obj, in_stock obj with
  | Some n, Some p, Some s =>
      Some {| row_id := id obj;
              row_name := n;
              row_description := description obj;
              row_price := p;
              row_tags := tags obj;
              row_in_stock := s;
              row_created_at := created_at obj |}
  | _, _, _ => None
  end.
End Items.

(** The relational store: table [users] in insertion order, table [items]
    indexed by primary key, and the last id each table handed out. *)
Record Database : Type := mkDatabase {
  users : list Users.t;
  users_seq : Z;
  items : gmap Z Items.row;
  items_seq : Z
}.

Definition set_users (rows : list Users.t) (seq : Z) (db : Database) : Database :=
  {| users := rows; users_seq := seq;
     items := items db; items_seq := items_seq db |}.

Definition set_items (rows : gmap Z Items.row) (seq : Z) (db : Database) : Database :=
  {| users := users db; users_seq := users_seq db;
     items := rows; items_seq := seq |}.

(** ** Token codec and password hasher ([app/core/security.py]) *)

(** The claims of a token, typed as the code reads and writes them:
    ["sub"] a string, ["scopes"] a list of strings, ["exp"] a numeric
    date; each may be missing from the payload. The code writes no other
    claim. *)
Record Claims : Type := mkClaims {
  sub : option string;
  scopes : option (list string);
  exp : option Z
}.

(** A bearer token as received: either text that is not a compact
    serialization of three segments, or a header algorithm, a payload and
    a signature. *)
Inductive Token : Type :=
  | Malformed (raw : string)
  | JWS (alg : string) (claims : Claims) (signature : string).

(** The library primitives the code relies on and does not define. The
    two calls into the bcrypt context return or raise; an exception of a
    subclass of [ValueError] is a [ValueError] here. *)
Class Primitives : Type := {
  (** keyed hash of the signing input (header and payload) under a key *)
  hmac_sha256 : string -> string * Claims -> string;
  (** [pwd_context.hash], with the salt it draws made explicit *)
  bcrypt_hash : string -> string -> result string;
  (** [pwd_context.verify plain hashed] *)
  bcrypt_verify : string -> string -> result bool
}.

(** [jose.JWTError] and its subclass for an expired token. *)
Inductive JWTError : Type :=
  | InvalidToken
  | ExpiredSignatureError.

Module jwt.
(** Modelled from the spec: [jwt.encode] of the token library
    (python-jose), which is not among the sources. The Token Codec issues
    a signed token embedding the claims; the signature is the keyed hash
    of header and payload under the key. *)
Definition encode `{Primitives} (claims : Claims) (key algorithm : string) : Token :=
  JWS algorithm claims (hmac_sha256 key (algorithm, claims)).

(** Modelled from the spec: [jwt.decode] of the token library
    (python-jose), which is not among the sources, read at clock value
    [now]. Verification fails as malformed when the structure or the
    signature is invalid (the header algorithm must be one of
    [algorithms], the signature must be the keyed hash of header and
    payload), as expired when [now] is past a present [exp]; otherwise it
    returns the claims. *)
Definition decode `{Primitives} (token : Token) (key : string)
    (algorithms : list string) (now : Z) : JWTError + Claims :=
  match token with
  | Malformed _ => inl InvalidToken
  | JWS alg claims signature =>
      if negb (bool_decide (alg ∈ algorithms)) then inl InvalidToken
      else if negb (String.eqb signature (hmac_sha256 key (alg, claims)))
      then inl InvalidToken
      else match exp claims with
           | Some e => if Z.ltb e now then inl ExpiredSignatureError else inr claims
           | None => inr claims
           end
  end.
End jwt.

Definition SECRET_KEY : string := "your-super-secret-key-that-is-long-and-random".
Definition ALGORITHM : string := "HS256".
Definition ACCESS_TOKEN_EXPIRE_MINUTES : Z := 30.

Definition verify_password `{Primitives} (plain_password hashed_password : string)
    : result bool :=
  bcrypt_verify plain_password hashed_password.

Definition get_password_hash `{Primitives} (salt password : string) : result string :=
  bcrypt_hash salt password.

(** [create_access_token(data, expires_minutes)] called at clock value
    [now]: copy [data], set ["exp"] to [now] plus the lifetime, sign. *)
Definition create_access_token `{Primitives} (data : Claims) (expires_minutes : Z)
    (now : Z) : Token :=
  let to_encode := data in
  let expire := now + 60 * expires_minutes in
  let to_encode :=
    {| sub := sub to_encode; scopes := scopes to_encode; exp := Some expire |} in
  jwt.encode to_encode SECRET_KEY ALGORITHM.

(** ** Repositories ([app/core/repositories.py]) *)

(** Python's [x or default] on a list: the default replaces an empty list. *)
Definition list_or {A : Type} (x default : list A) : list A :=
  match x with
  | [] => default
  | _ :: _ => x
  end.

(** The attributes [_to_in_db] reads; both the ORM class [Users] and the
    model [UserInDB] provide them. *)
Class UserAttributes (A : Type) : Type := {
  get_username : A -> string;
  get_full_name : A -> option string;
  get_email : A -> option string;
  get_is_active : A -> bool;
  get_scopes : A -> list string;
  get_hashed_password : A -> string
}.

#[export] Instance Users_attributes : UserAttributes Users.t := {|
  get_username := Users.username;
  get_full_name := Users.full_name;
  get_email := Users.email;
  get_is_active := Users.is_active;
  get_scopes := Users.scopes;
  get_hashed_password := Users.hashed_password
|}.

#[export] Instance UserInDB_attributes : UserAttributes UserInDB.t := {|
  get_username := UserInDB.username;
  get_full_name := UserInDB.full_name;
  get_email := UserInDB.email;
  get_is_active := UserInDB.is_active;
  get_scopes := UserInDB.scopes;
  get_hashed_password := UserInDB.hashed_password
|}.

Module SQLUserRepo.
Definition _to_read (obj : Users.t) : UserRead.t :=
  {| UserRead.id := Users.id obj;
     UserRead.username := Users.username obj;
     UserRead.full_name := Users.full_name obj;
     UserRead.email := Users.email obj;
     UserRead.is_active := Users.is_active obj;
     UserRead.scopes := Users.scopes obj |}.

Definition _to_in_db {A : Type} `{UserAttributes A} (obj : A) : UserInDB.t :=
  {| UserInDB.username := get_username obj;
     UserInDB.full_name := get_full_name obj;
     UserInDB.email := get_email obj;
     UserInDB.is_active := get_is_active obj;
     UserInDB.scopes := get_scopes obj;
     UserInDB.hashed_password := get_hashed_password obj |}.

(** [select(Users).where(Users.username == username)]. *)
Definition select_by_username (username : string) (db : Database) : list Users.t :=
  filter (fun obj => Users.username obj = username) (users db).

(** [create]: hash the password, add the row and flush. An exception of
    the hasher leaves the method before the store is touched. The flush
    is refused with [IntegrityError] when the unique index on [username]
    already holds the name; nothing is written then. *)
Definition create `{Primitives} (salt : string) (payload : UserCreate.t)
    (db : Database) : result UserRead.t * Database :=
  match get_password_hash salt (UserCreate.password payload) with
  | Raise e => (Raise e, db)
  | Ok hashed =>
      let obj :=
        {| Users.id := users_seq db + 1;
           Users.username := UserCreate.username payload;
           Users.full_name := UserCreate.full_name payload;
           Users.email := UserCreate.email payload;
           Users.is_active := UserCreate.is_active payload;
           Users.scopes := list_or (UserCreate.scopes payload) [];
           Users.hashed_password := hashed |} in
      match select_by_username (Users.username obj) db with
      | _ :: _ => (Raise IntegrityError, db)
      | [] => (Ok (_to_read obj), set_users (users db ++ [obj]) (Users.id obj) db)
      end
  end.

Definition get_by_username (username : string) (db : Database) : option UserInDB.t :=
  match head (select_by_username username db) with
  | None => None
  | Some obj => Some (_to_in_db obj)
  end.
End SQLUserRepo.

(** One entry of [changes.model_dump(exclude_unset=True)]: an attribute
    name of [Items] with the value to assign. *)
Inductive item_change : Type :=
  | change_name (v : option string)
  | change_description (v : option string)
  | change_price (v : option float)
  | change_tags (v : option (list string))
  | change_in_stock (v : option bool).

Definition dump_field {A : Type} (key : A -> item_change) (f : field A) : list item_change :=
  match f with
  | Absent => []
  | Present v => [key v]
  end.

(** [changes.model_dump(exclude_unset=True)]: the given fields only, in
    declaration order. *)
Definition model_dump_exclude_unset (changes : ItemUpdate.t) : list item_change :=
  dump_field change_name (ItemUpdate.name changes)
  ++ dump_field change_description (ItemUpdate.description changes)
  ++ dump_field change_price (ItemUpdate.price changes)
  ++ dump_field change_tags (ItemUpdate.tags changes)
  ++ dump_field change_in_stock (ItemUpdate.in_stock changes).

(** [setattr(obj, k, v)]. *)
Definition setattr (obj : Items.t) (kv : item_change) : Items.t :=
  match kv with
  | change_name v =>
      {| Items.id := Items.id obj; Items.name := v;
         Items.description := Items.description obj; Items.price := Items.price obj;
         Items.tags := Items.tags obj; Items.in_stock := Items.in_stock obj;
         Items.created_at := Items.created_at obj |}
  | change_description v =>
      {| Items.id := Items.id obj; Items.name := Items.name obj;
         Items.description := v; Items.price := Items.price obj;
         Items.tags := Items.tags obj; Items.in_stock := Items.in_stock obj;
         Items.created_at := Items.created_at obj |}
  | change_price v =>
      {| Items.id := Items.id obj; Items.name := Items.name obj;
         Items.description := Items.description obj; Items.price := v;
         Items.tags := Items.tags obj; Items.in_stock := Items.in_stock obj;
         Items.created_at := Items.created_at obj |}
  | change_tags v =>
      {| Items.id := Items.id obj; Items.name := Items.name obj;
         Items.description := Items.description obj; Items.price := Items.price obj;
         Items.tags := v; Items.in_stock := Items.in_stock obj;
         Items.created_at := Items.created_at obj |}
  | change_in_stock v =>
      {| Items.id := Items.id obj; Items.name := Items.name obj;
         Items.description := Items.description obj; Items.price := Items.price obj;
         Items.tags := Items.tags obj; Items.in_stock := v;
         Items.created_at := Items.created_at obj |}
  end.

(** Whether a Python [int] fits an SQLite INTEGER (64 bits, signed). *)
Definition sqlite_integer (i : Z) : bool :=
  Z.leb (- 2 ^ 63) i && Z.ltb i (2 ^ 63).

Module SQLItemRepo.
(** [_to_read]: building an [ItemRead] validates the attribute types, so
    a [None] where the model wants a string, a float, a list or a bool
    raises [ValidationError]. *)
Definition _to_read (obj : Items.t) : result ItemRead.t :=
  match Items.name obj, Items.price obj, Items.tags obj, Items.in_stock obj with
  | Some n, Some p, Some tg, Some s =>
      Ok {| ItemRead.id := Items.id obj;
            ItemRead.name := n;
            ItemRead.description := Items.description obj;
            ItemRead.price := p;
            ItemRead.tags := tg;
            ItemRead.in_stock := s;
            ItemRead.created_at := Items.created_at obj |}
  | _, _, _, _ => Raise ValidationError
  end.

(** [create] at store clock [now]: the store assigns [id] and
    [created_at] ([server_default=func.now()]). *)
Definition create (now : Z) (payload : ItemCreate.t) (db : Database)
    : result ItemRead.t * Database :=
  let obj :=
    {| Items.id := items_seq db + 1;
       Items.name := Some (ItemCreate.name payload);
       Items.description := ItemCreate.description payload;
       Items.price := Some (ItemCreate.price payload);
       Items.tags := Some (ItemCreate.tags payload);
       Items.in_stock := Some (ItemCreate.in_stock payload);
       Items.created_at := now |} in
  match Items.store obj with
  | None => (Raise IntegrityError, db)
  | Some r =>
      (_to_read (Items.load r),
       set_items (<[Items.id obj := r]> (items db)) (Items.id obj) db)
  end.

(** [get]: [session.get(Items, item_id)] binds [item_id] to the select
    by primary key, which the driver refuses with [OverflowError] for an
    id that does not fit an SQLite INTEGER. *)
Definition get (item_id : Z) (db : Database) : result (option ItemRead.t) :=
  if negb (sqlite_integer item_id) then Raise OverflowError
  else
    match items db !! item_id with
    | None => Ok None
    | Some res => Some <$> _to_read (Items.load res)
    end.

(** [update]: load the row (as [get] does, with the same refusal of an
    id that does not fit), assign the dumped fields one by one, flush,
    refresh, commit. A refused flush leaves the store as it was. *)
Definition update (item_id : Z) (changes : ItemUpdate.t) (db : Database)
    : result (option ItemRead.t) * Database :=
  if negb (sqlite_integer item_id) then (Raise OverflowError, db)
  else
    match items db !! item_id with
    | None => (Ok None, db)
    | Some r =>
        let obj := Items.load r in
        let data := model_dump_exclude_unset changes in
        let obj := fold_left setattr data obj in
        match Items.store obj with
        | None => (Raise IntegrityError, db)
        | Some r' =>
            (Some <$> _to_read (Items.load r'),
             set_items (<[item_id := r']> (items db)) (items_seq db) db)
        end
    end.
End SQLItemRepo.

(** ** Authenticator ([app/core/security.py]) *)

(** [authenticate_user]: an exception of [verify_password] leaves the
    function as it is. *)
Definition authenticate_user `{Primitives} (repo : Database)
    (username password : string) : result (option UserInDB.t) :=
  match SQLUserRepo.get_by_username username repo with
  | None => Ok None
  | Some user =>
      verified ← verify_password password (UserInDB.hashed_password user);
      if negb verified then Ok None
      else Ok (Some user)
  end.

(** ** Request dependencies ([app/core/dependencies.py]) *)

(** The double-quote character of the f-string in [forbidden_exception]. *)
Definition dquote : string := String (ascii_of_nat 34) EmptyString.

(** [get_current_user] for an endpoint declaring [security_scopes], on the
    bearer token the OAuth2 scheme extracted, read at clock value [now]. *)
Definition get_current_user `{Primitives} (security_scopes : list string)
    (token : Token) (repo : Database) (now : Z) : result UserInDB.t :=
  let unauthorized_exception :=
    HTTPException HTTP_401_UNAUTHORIZED "Could not validate credentials."
      (Some {[ "WWW-Authenticate" := "Bearer" ]}) in
  let forbidden_exception :=
    HTTPException HTTP_403_FORBIDDEN "Insufficient scopes."
      (Some {[ "WWW-Authenticate" :=
                 "Bearer scope=" ++ dquote
                 ++ String.concat " " security_scopes ++ dquote ]}) in
  match jwt.decode token SECRET_KEY [ALGORITHM] now with
  | inl _ => Raise unauthorized_exception
  | inr payload =>
      match sub payload with
      | None => Raise unauthorized_exception
      | Some username =>
          let token_scopes := list_or (default [] (scopes payload)) [] in
          if negb (bool_decide (security_scopes = []))
             && negb (forallb (fun scope => bool_decide (scope ∈ token_scopes))
                              security_scopes)
          then Raise forbidden_exception
          else
            match SQLUserRepo.get_by_username username repo with
            | None => Raise unauthorized_exception
            | Some user_in_db =>
                if negb (UserInDB.is_active user_in_db)
                then Raise unauthorized_exception
                else Ok (SQLUserRepo._to_in_db user_in_db)
            end
      end
  end.

Definition get_item_or_404 (item_id : Z) (repo : Database) : result ItemRead.t :=
  item ← SQLItemRepo.get item_id repo;
  match item with
  | None => Raise (HTTPException HTTP_404_NOT_FOUND "Item not found." None)
  | Some item => Ok item
  end.

(** ** Authentication endpoints ([app/api/v1/auth.py]) *)

(** The fields of FastAPI's [OAuth2PasswordRequestForm] the handler
    reads; [scopes] is the space-separated form field already split. *)
Record OAuth2PasswordRequestForm : Type := mkForm {
  form_username : string;
  form_password : string;
  form_scopes : list string
}.

(** The JSON object a successful token exchange returns. *)
Record TokenResponse : Type := mkTokenResponse {
  access_token : Token;
  token_type : string
}.

(** [signup]: the [except ValueError] clause catches every [ValueError]
    that leaves [repo.create], those of the hasher included. *)
Definition signup `{Primitives} (salt : string) (payload : UserCreate.t)
    (repo : Database) : result UserRead.t * Database :=
  match SQLUserRepo.create salt payload repo with
  | (Raise (ValueError _), repo') =>
      (Raise (HTTPException HTTP_400_BAD_REQUEST "User already exists." None), repo')
  | outcome => outcome
  end.

Definition login_for_access_token `{Primitives} (form_data : OAuth2PasswordRequestForm)
    (repo : Database) (now : Z) : result TokenResponse :=
  user ← authenticate_user repo (form_username form_data) (form_password form_data);
  match user with
  | None =>
      Raise (HTTPException HTTP_401_UNAUTHORIZED "Incorrect username or password." None)
  | Some user =>
      let requested_scopes := list_or (form_scopes form_data) (UserInDB.scopes user) in
      let access_token :=
        create_access_token
          {| sub := Some (UserInDB.username user);
             scopes := Some requested_scopes;
             exp := None |}
          ACCESS_TOKEN_EXPIRE_MINUTES now in
      Ok {| access_token := access_token; token_type := "bearer" |}
  end.

(** ** Item endpoints with response caching ([app/api/v2/items.py]) *)

(** The cache backend under the project prefix: cache key to cached
    response body. [FastAPICache.clear()] with no arguments removes every
    entry under the prefix. *)
Definition Cache : Type := gmap string (list ItemRead.t).

Module FastAPICache.
Definition clear (cache : Cache) : Cache := ∅.
End FastAPICache.

Module v1.
(** The write handlers of [app/api/v1/items.py]; they share the store
    with the v2 handlers and are given the cache only to hand it on. *)

Definition create_item (now : Z) (payload : ItemCreate.t) (repo : Database)
    (cache : Cache) : result ItemRead.t * Database * Cache :=
  (SQLItemRepo.create now payload repo, cache).

Definition update_item (item_id : Z) (changes : ItemUpdate.t)
    (repo : Database) (cache : Cache)
    : result ItemRead.t * Database * Cache :=
  match SQLItemRepo.update item_id changes repo with
  | (Raise e, repo') => (Raise e, repo', cache)
  | (Ok None, repo') =>
      (Raise (HTTPException HTTP_404_NOT_FOUND "Item not found." None), repo', cache)
  | (Ok (Some updated), repo') => (Ok updated, repo', cache)
  end.
End v1.

Module v2.
(** The handler bodies, entered once the route's dependencies have
    resolved; each returns its outcome, the store and the cache. *)

Definition create_item (now : Z) (payload : ItemCreate.t) (repo : Database)
    (cache : Cache) : result ItemRead.t * Database * Cache :=
  match SQLItemRepo.create now payload repo with
  | (Raise e, repo') => (Raise e, repo', cache)
  | (Ok item, repo') => (Ok item, repo', FastAPICache.clear cache)
  end.

(** The loop of [create_items_bulk]: [created_items] accumulates; a
    raising [create] ends the request, the rows committed before it stay. *)
Fixpoint create_items_bulk_loop (now : Z) (payloads : list ItemCreate.t)
    (created_items : list ItemRead.t) (repo : Database)
    : result (list ItemRead.t) * Database :=
  match payloads with
  | [] => (Ok created_items, repo)
  | payload :: payloads' =>
      match SQLItemRepo.create now payload repo with
      | (Raise e, repo') => (Raise e, repo')
      | (Ok created_item, repo') =>
          create_items_bulk_loop now payloads' (created_items ++ [created_item]) repo'
      end
  end.

Definition create_items_bulk (now : Z) (payloads : list ItemCreate.t)
    (repo : Database) (cache : Cache)
    : result (list ItemRead.t) * Database * Cache :=
  let created_items := [] in
  (create_items_bulk_loop now payloads created_items repo, cache).

Definition update_item (item : ItemRead.t) (changes : ItemUpdate.t)
    (repo : Database) (cache : Cache)
    : result ItemRead.t * Database * Cache :=
  match SQLItemRepo.update (ItemRead.id item) changes repo with
  | (Raise e, repo') => (Raise e, repo', cache)
  | (Ok None, repo') =>
      (Raise (HTTPException HTTP_404_NOT_FOUND "Item not found." None), repo', cache)
  | (Ok (Some updated), repo') => (Ok updated, repo', FastAPICache.clear cache)
  end.
End v2.


(** * The rest of the service

    The functions below are embedded with the same conventions; what they
    add is stated where it is used. *)

From Stdlib Require Import DecimalString.
From stdpp Require Import sorting.

Local Open Scope Z_scope.
Local Open Scope string_scope.

(** ** Python values used below *)

(** [str(i)] of an integer: its decimal numeral, with a minus sign for a
    negative one. *)
Definition str_int (i : Z) : string := NilZero.string_of_int (Z.to_int i).

(** The line feed the f-strings end with. *)
Definition newline : string := String (ascii_of_nat 10) EmptyString.

(** [l[start:stop]] on a list, with Python's treatment of the bounds: a
    negative bound counts from the end, and each bound is then clamped to
    the list. *)
Definition py_slice {A : Type} (l : list A) (start stop : Z) : list A :=
  let n := Z.of_nat (length l) in
  let clamp i := if Z.ltb i 0 then Z.max 0 (i + n) else Z.min i n in
  let lower := clamp start in
  let upper := clamp stop in
  take (Z.to_nat (upper - lower)) (drop (Z.to_nat lower) l).

(** [needle in haystack] on strings. *)
Fixpoint str_contains (needle haystack : string) : bool :=
  String.prefix needle haystack
  || match haystack with
     | EmptyString => false
     | String _ rest => str_contains needle rest
     end.

(** ** CPU-bound work ([app/api/v2/system.py]) *)

(** One round of the loop of [cpu_heavy]: [a, b = b, a + b]. *)
Definition cpu_heavy_step (ab : Z * Z) : Z * Z := (ab.2, ab.1 + ab.2).

(** [cpu_heavy(n)]: [range(n)] is empty for [n <= 0]. *)
Definition cpu_heavy (n : Z) : Z :=
  (Nat.iter (Z.to_nat n) cpu_heavy_step (0, 1)).1.

(** ** Streaming exports ([app/api/v2/stream.py]) *)

(** The chunks [generate_csv(rows)] yields, in order. *)
Definition generate_csv (rows : Z) : list string :=
  ("id,name" ++ newline)
  :: ((fun i => str_int i ++ ",Item " ++ str_int i ++ newline) <$> seqZ 1 rows).

(** The chunks of [generate_json(rows)] inside [stream_items_json]. *)
Definition generate_json (rows : Z) : list string :=
  (("[" ++ newline)
   :: ((fun i =>
          let line :=
            "  {" ++ dquote ++ "id" ++ dquote ++ ": " ++ str_int i ++ ", "
            ++ dquote ++ "name" ++ dquote ++ ": " ++ dquote ++ "Item " ++ str_int i
            ++ dquote ++ "}" in
          let line := if Z.ltb i rows then line ++ "," else line in
          line ++ newline) <$> seqZ 1 rows))
  ++ ["]" ++ newline].

(** ** Settings and pagination ([app/core/config.py], [app/models/common.py],
       [app/core/dependencies.py]) *)

Record Settings : Type := mkSettings {
  app_name : string;
  debug : bool;
  max_page_size : Z;
  allowed_origins : list string
}.

(** [get_settings()]: the defaults of the class. *)
Definition get_settings : Settings :=
  {| app_name := "FastAPI Tutorial Project";
     debug := true;
     max_page_size := 50;
     allowed_origins := ["http://localhost:3000"; "http://127.0.0.1:3000"] |}.

Record Pagination : Type := mkPagination {
  page : Z;
  page_size : Z
}.

(** Building a [Pagination] checks [page >= 1] and [1 <= page_size <= 100]. *)
Definition new_Pagination (page page_size : Z) : result Pagination :=
  if Z.leb 1 page && Z.leb 1 page_size && Z.leb page_size 100
  then Ok {| page := page; page_size := page_size |}
  else Raise ValidationError.

Definition get_pagination (settings : Settings) (page : Z) (page_size : option Z)
    : result Pagination :=
  let chosen_size := match page_size with Some size => size | None => 10 end in
  let chosen_size := Z.min chosen_size (max_page_size settings) in
  new_Pagination page chosen_size.

Definition get_request_id (x_request_id : option string) : option string :=
  x_request_id.

(** ** Listing items ([app/core/repositories.py], [app/api/v1/items.py],
       [app/api/v2/items.py]) *)

(** Text operations of the database and of Python that the code calls
    and does not define: the case-insensitive [LIKE] of the engine
    (column value, pattern) and [str.lower]. *)
Class TextOps : Type := {
  ilike : string -> string -> bool;
  str_lower : string -> string
}.

(** The order of [order_by(Items.id)]. *)
Definition by_id (r1 r2 : Items.row) : Prop := Items.row_id r1 <= Items.row_id r2.

#[export] Instance by_id_dec : RelDecision by_id :=
  fun r1 r2 => decide (Items.row_id r1 <= Items.row_id r2).

(** [SQLItemRepo.list(q, limit)]: rows in ascending [id], kept when the
    name matches [%q%] if [q] is given and not empty, cut at [limit] (the
    engine, SQLite, reads a negative limit as no limit), each read into an
    [ItemRead]; the first row that does not validate raises. *)
Definition SQLItemRepo_list `{TextOps} (q : option string) (limit : Z)
    (db : Database) : result (list ItemRead.t) :=
  let rows :=
    merge_sort by_id ((map_to_list (items db)).*2) in
  let rows :=
    match q with
    | Some (String c rest) =>
        filter (fun r => ilike (Items.row_name r) ("%" ++ String c rest ++ "%") = true)
          rows
    | _ => rows
    end in
  let rows := if Z.ltb limit 0 then rows else take (Z.to_nat limit) rows in
  mapM (fun r => SQLItemRepo._to_read (Items.load r)) rows.

(** The filter [list_items] applies in Python. *)
Definition name_filter `{TextOps} (q : option string) (items : list ItemRead.t)
    : list ItemRead.t :=
  match q with
  | Some (String c rest) =>
      filter (fun i => str_contains (str_lower (String c rest))
                         (str_lower (ItemRead.name i)) = true) items
  | _ => items
  end.

Definition v1_list_items_paged `{TextOps} (pagination : Pagination) (repo : Database)
    : result (list ItemRead.t) :=
  items ← SQLItemRepo_list None 25 repo;
  let start := (page pagination - 1) * page_size pagination in
  let end_ := start + page_size pagination in
  Ok (py_slice items start end_).

Definition v1_list_items `{TextOps} (repo : Database) (q : option string) (limit : Z)
    : result (list ItemRead.t) :=
  items ← SQLItemRepo_list None 25 repo;
  let items := name_filter q items in
  Ok (py_slice items 0 limit).

Definition v1_read_item (item_id : Z) (repo : Database) : result ItemRead.t :=
  item ← SQLItemRepo.get item_id repo;
  match item with
  | None => Raise (HTTPException HTTP_404_NOT_FOUND "Item not found." None)
  | Some item => Ok item
  end.

(** [list_items_paged] of v2, the function as written (what runs under
    the [cache] decorator when the cache holds no answer): the page, and
    the count handed to the background task [log_no_of_items_paged]. *)
Definition v2_list_items_paged `{TextOps} (pagination : Pagination) (repo : Database)
    : result (list ItemRead.t * Z) :=
  items ← SQLItemRepo_list None (page_size pagination) repo;
  let start := (page pagination - 1) * page_size pagination in
  let end_ := start + page_size pagination in
  Ok (py_slice items start end_, end_ - start).

Definition v2_read_item (item : ItemRead.t) : ItemRead.t := item.

(** [fetch_inventory(item_id)]; Python's [%] takes the sign of the
    divisor, as [Z.modulo] does. *)
Definition fetch_inventory (item_id : Z) : Z := 10 + item_id mod 5.

(** ** Rate-limit identity ([app/core/rate_limit.py]) *)

(** What [_user_identifier] reads of a request: its headers (looked up
    under the name the code writes), the client address when the server
    knows one, and the path of the URL. *)
Record Request : Type := mkRequest {
  request_headers : gmap string string;
  request_client_host : option string;
  request_url_path : string
}.

(** The reading of a token's text into header, payload and signature,
    which the token library does before it verifies anything. *)
Class TokenWire : Type := {
  parse_token : string -> Token
}.

(** [_user_identifier(request)] read at clock value [now]. After the
    prefix test, [auth.split(" ", 1)[1]] is the text behind the first
    seven characters. *)
Definition _user_identifier `{Primitives} `{TokenWire} (request : Request) (now : Z)
    : string :=
  let auth := default "" (request_headers request !! "Authorization") in
  let by_ip :=
    let client_ip := default "unknown" (request_client_host request) in
    "ip:" ++ client_ip ++ ":" ++ request_url_path request in
  if String.prefix "Bearer " auth then
    let token := String.substring 7 (String.length auth - 7) auth in
    match jwt.decode (parse_token token) SECRET_KEY [ALGORITHM] now with
    | inr payload =>
        let subject :=
          match sub payload with
          | Some (String c rest) => String c rest
          | _ => "anonymous"
          end in
        "user:" ++ subject ++ ":" ++ request_url_path request
    | inl _ => by_ip
    end
  else by_ip.

(** ** The in-memory repositories ([app/db/db.py]) *)

(** A Python [dict] with its insertion order: assigning to a key that is
    present replaces the value in place, to a new key appends. *)
Section Dict.
Context {K V : Type} `{EqDecision K}.

Fixpoint dict_get (d : list (K * V)) (k : K) : option V :=
  match d with
  | [] => None
  | (k', v) :: d' => if decide (k = k') then Some v else dict_get d' k
  end.

Fixpoint dict_set (d : list (K * V)) (k : K) (v : V) : list (K * V) :=
  match d with
  | [] => [(k, v)]
  | (k', v') :: d' =>
      if decide (k = k') then (k, v) :: d' else (k', v') :: dict_set d' k v
  end.

(** [list(d).index(k)], [None] where Python raises [ValueError]. *)
Fixpoint dict_index (d : list (K * V)) (k : K) : option Z :=
  match d with
  | [] => None
  | (k', _) :: d' =>
      if decide (k = k') then Some 0 else Z.succ <$> dict_index d' k
  end.
End Dict.

(** [ItemRead] called on the entries of a dict that has the seven keys
    of the model, with values that may be [None]: the types are
    validated. *)
Definition ItemRead_of_dict (data : Items.t) : result ItemRead.t :=
  match Items.name data, Items.price data, Items.tags data, Items.in_stock data with
  | Some n, Some p, Some tg, Some s =>
      Ok {| ItemRead.id := Items.id data;
            ItemRead.name := n;
            ItemRead.description := Items.description data;
            ItemRead.price := p;
            ItemRead.tags := tg;
            ItemRead.in_stock := s;
            ItemRead.created_at := Items.created_at data |}
  | _, _, _, _ => Raise ValidationError
  end.

(** [item.model_dump()] of an [ItemRead]. *)
Definition ItemRead_model_dump (item : ItemRead.t) : Items.t :=
  {| Items.id := ItemRead.id item;
     Items.name := Some (ItemRead.name item);
     Items.description := ItemRead.description item;
     Items.price := Some (ItemRead.price item);
     Items.tags := Some (ItemRead.tags item);
     Items.in_stock := Some (ItemRead.in_stock item);
     Items.created_at := ItemRead.created_at item |}.

(** [data.update(diff)]: each entry of [diff] replaces the value under
    its key, which is what [setattr] does to the attribute of that name. *)
Definition dict_update (data : Items.t) (diff : list item_change) : Items.t :=
  fold_left setattr diff data.

Module ItemDB.
(** [_id_counter] is the value [next] will return. *)
Record t : Type := mk {
  _items : list (Z * ItemRead.t);
  _id_counter : Z
}.

Definition init : t := {| _items := []; _id_counter := 1 |}.

Definition create (now : Z) (payload : ItemCreate.t) (db : t) : ItemRead.t * t :=
  let new_id := _id_counter db in
  let item :=
    {| ItemRead.id := new_id;
       ItemRead.created_at := now;
       ItemRead.name := ItemCreate.name payload;
       ItemRead.description := ItemCreate.description payload;
       ItemRead.price := ItemCreate.price payload;
       ItemRead.tags := ItemCreate.tags payload;
       ItemRead.in_stock := ItemCreate.in_stock payload |} in
  (item, {| _items := dict_set (_items db) new_id item; _id_counter := new_id + 1 |}).

Definition list (db : t) : list ItemRead.t := (_items db).*2.

Definition get (item_id : Z) (db : t) : option ItemRead.t :=
  dict_get (_items db) item_id.

Definition update (item_id : Z) (changes : ItemUpdate.t) (db : t)
    : result (option ItemRead.t) * t :=
  match dict_get (_items db) item_id with
  | None => (Ok None, db)
  | Some existing =>
      let data := ItemRead_model_dump existing in
      let diff := model_dump_exclude_unset changes in
      let data := dict_update data diff in
      match ItemRead_of_dict data with
      | Raise e => (Raise e, db)
      | Ok updated =>
          (Ok (Some updated),
           {| _items := dict_set (_items db) item_id updated;
              _id_counter := _id_counter db |})
      end
  end.
End ItemDB.

Module UserDB.
Record t : Type := mk {
  _users : list (string * UserInDB.t);
  _id_counter : Z
}.

(** [UserDB()]: [_seed] adds nothing. *)
Definition init : t := {| _users := []; _id_counter := 1 |}.

(** [UserRead(id=id, **user.model_dump(exclude={"hashed_password"}))]. *)
Definition read_as (id : Z) (user : UserInDB.t) : UserRead.t :=
  {| UserRead.id := id;
     UserRead.username := UserInDB.username user;
     UserRead.full_name := UserInDB.full_name user;
     UserRead.email := UserInDB.email user;
     UserRead.is_active := UserInDB.is_active user;
     UserRead.scopes := UserInDB.scopes user |}.

Definition create (payload : UserCreate.t) (hashed_password : string) (db : t)
    : result UserRead.t * t :=
  let username := UserCreate.username payload in
  match dict_get (_users db) username with
  | Some _ => (Raise (ValueError "User already exists."), db)
  | None =>
      let new_id := _id_counter db in
      let user_in_db :=
        {| UserInDB.username := username;
           UserInDB.full_name := UserCreate.full_name payload;
           UserInDB.email := UserCreate.email payload;
           UserInDB.is_active := UserCreate.is_active payload;
           UserInDB.scopes := list_or (UserCreate.scopes payload) [];
           UserInDB.hashed_password := hashed_password |} in
      (Ok (read_as new_id user_in_db),
       {| _users := dict_set (_users db) username user_in_db;
          _id_counter := new_id + 1 |})
  end.

Definition get_by_username (username : string) (db : t) : option UserInDB.t :=
  dict_get (_users db) username.

(** [to_read]: the id is the position of the name among the keys, plus
    one; a name that is not a key makes [index] raise [ValueError] (the
    message is Python's for a name without quotes or escapes). *)
Definition to_read (username : string) (user : UserInDB.t) (db : t)
    : result UserRead.t :=
  match dict_index (_users db) username with
  | None => Raise (ValueError ("'" ++ username ++ "' is not in list"))
  | Some idx => Ok (read_as (idx + 1) user)
  end.
End UserDB.
(** ** Vocabulary of the statements *)

(** The two exceptions [get_current_user] prepares (its lines 85-96). *)
Definition unauthorized_exception : exn :=
  HTTPException 401 "Could not validate credentials."
    (Some {[ "WWW-Authenticate" := "Bearer" ]}).

Definition forbidden_exception (security_scopes : list string) : exn :=
  HTTPException 403 "Insufficient scopes."
    (Some {[ "WWW-Authenticate" :=
               "Bearer scope=" ++ dquote
               ++ String.concat " " security_scopes ++ dquote ]}).

(** The store lookup that ends [get_current_user] (its lines 116-120),
    on its own: what remains to be decided once the scope gate is passed. *)
Definition liveness_outcome (username : string) (repo : Database) : result UserInDB.t :=
  match SQLUserRepo.get_by_username username repo with
  | None => Raise unauthorized_exception
  | Some user_in_db =>
      if UserInDB.is_active user_in_db then Ok user_in_db
      else Raise unauthorized_exception
  end.

(** The scopes a decoded payload grants: its ["scopes"] claim, none when
    the claim is missing. *)
Definition granted_scopes (payload : Claims) : list string :=
  default [] (scopes payload).

(** The test of the scope gate (lines 109-111 of [get_current_user]) on
    the scopes an endpoint requires and the scopes a token grants. *)
Definition scopes_insufficient (security_scopes token_scopes : list string) : bool :=
  negb (bool_decide (security_scopes = []))
  && negb (forallb (fun scope => bool_decide (scope ∈ token_scopes)) security_scopes).




(** The lines of the two exports, as the f-strings build them. *)
Definition csv_header : string := "id,name" ++ newline.

Definition csv_line (i : Z) : string :=
  str_int i ++ ",Item " ++ str_int i ++ newline.

Definition json_item (i : Z) : string :=
  "  {" ++ dquote ++ "id" ++ dquote ++ ": " ++ str_int i ++ ", "
  ++ dquote ++ "name" ++ dquote ++ ": " ++ dquote ++ "Item " ++ str_int i
  ++ dquote ++ "}".

(** The rows [SQLItemRepo.list] selects before it reads them: sorted by
    id, filtered, cut at the limit. *)
Definition selected_rows `{TextOps} (q : option string) (limit : Z) (db : Database)
    : list Items.row :=
  let rows := merge_sort by_id ((map_to_list (items db)).*2) in
  let rows :=
    match q with
    | Some (String c rest) =>
        filter (fun r => ilike (Items.row_name r) ("%" ++ String c rest ++ "%") = true)
          rows
    | _ => rows
    end in
  if Z.ltb limit 0 then rows else take (Z.to_nat limit) rows.

(** What the in-memory item repository keeps true: every item is filed
    under its own id, below the next id to hand out. *)
Definition ItemDB_wf (db : ItemDB.t) : Prop :=
  forall k item,
    dict_get (ItemDB._items db) k = Some item ->
    ItemRead.id item = k /\ k < ItemDB._id_counter db.

(** What the in-memory user repository keeps true: the next id is one
    more than the number of users. *)
Definition UserDB_wf (db : UserDB.t) : Prop :=
  UserDB._id_counter db = Z.of_nat (length (UserDB._users db)) + 1.

(** What the SQL store keeps true of table [items]: every row is filed
    under its own id, which the sequence has reached. *)
Definition items_wf (db : Database) : Prop :=
  forall k r, items db !! k = Some r -> Items.row_id r = k /\ k <= items_seq db.

(** What the SQL store keeps true as a whole: item rows filed under
    their ids, user names and user ids pairwise distinct, and no user id
    beyond the sequence. *)
Definition store_wf (db : Database) : Prop :=
  items_wf db
  /\ NoDup (Users.username <$> users db)
  /\ NoDup (Users.id <$> users db)
  /\ Forall (fun obj => Users.id obj <= users_seq db) (users db).

(** The table holds, under the item's id, a row that reads back as the
    item. *)
Definition stored_as (db : Database) (item : ItemRead.t) : Prop :=
  exists r, items db !! ItemRead.id item = Some r
            /\ SQLItemRepo._to_read (Items.load r) = Ok item.
(** ** Sample data

    A concrete instance of the primitives and the sample records of
    [app/db/db.py], used to run the definitions on explicit inputs. *)

(** Whether a text holds the NUL character. *)
Fixpoint has_nul (s : string) : bool :=
  match s with
  | EmptyString => false
  | String c rest => Ascii.eqb c Ascii.zero || has_nul rest
  end.

(** The error of the bcrypt context for a secret that holds a NUL
    character, a subclass of [ValueError]. *)
Definition null_password_error : exn :=
  ValueError "bcrypt does not allow NULL bytes in password".

(** Stand-ins that compute: the signature is the key followed by the
    algorithm name; a secret that holds a NUL character is refused, as
    the bcrypt context refuses it; the hash is the salt followed by the
    secret, and a secret verifies when the hash ends with it after a
    four-character salt. *)
Definition sample_primitives : Primitives := {|
  hmac_sha256 := fun key input => key ++ "/" ++ fst input;
  bcrypt_hash := fun salt secret =>
    if has_nul secret then Raise null_password_error
    else Ok (salt ++ secret);
  bcrypt_verify := fun plain hashed =>
    if has_nul plain then Raise null_password_error
    else Ok (String.eqb plain (String.substring 4 (String.length hashed - 4) hashed))
|}.

(** A password with a NUL character in it. *)
Definition nul_password : string := "pass" ++ String Ascii.zero "word".

Definition empty_db : Database :=
  {| users := []; users_seq := 0; items := ∅; items_seq := 0 |}.

(** The signup body documented in [app/db/db.py]. *)
Definition hari : UserCreate.t :=
  {| UserCreate.username := "hari";
     UserCreate.full_name := Some "poojary";
     UserCreate.email := Some "hari@example.com";
     UserCreate.is_active := true;
     UserCreate.scopes := ["items:read"; "items:write"];
     UserCreate.password := "haridx" |}.

(** A deactivated account, and an account granted the read scope only. *)
Definition bob_row : Users.t :=
  {| Users.id := 1; Users.username := "bob"; Users.full_name := None;
     Users.email := None; Users.is_active := false;
     Users.scopes := ["items:read"]; Users.hashed_password := "saltbobsecret" |}.

Definition alice_row : Users.t :=
  {| Users.id := 2; Users.username := "alice"; Users.full_name := None;
     Users.email := None; Users.is_active := true;
     Users.scopes := ["items:read"]; Users.hashed_password := "saltalicepw" |}.

Definition sample_users_db : Database :=
  {| users := [bob_row; alice_row]; users_seq := 2; items := ∅; items_seq := 0 |}.

(** The first sample item of [app/db/db.py], stored under id 1. *)
Definition mouse_row : Items.row :=
  {| Items.row_id := 1; Items.row_name := "Wireless Mouse";
     Items.row_description := Some "Ergonomic wireless mouse with USB receiver";
     Items.row_price := 799%float;
     Items.row_tags := Some ["electronics"; "mouse"; "wireless"];
     Items.row_in_stock := true; Items.row_created_at := 1700000000 |}.


Definition notebook : ItemCreate.t :=
  {| ItemCreate.name := "Notebook";
     ItemCreate.description := Some "200 pages, ruled, A5 size";
     ItemCreate.price := 150%float;
     ItemCreate.tags := ["stationery"; "notebook"; "paper"];
     ItemCreate.in_stock := true |}.

Definition no_changes : ItemUpdate.t :=
  {| ItemUpdate.name := Absent; ItemUpdate.description := Absent;
     ItemUpdate.price := Absent; ItemUpdate.tags := Absent;
     ItemUpdate.in_stock := Absent |}.

(** A cache holding one cached read: the item listing taken while table
    [items] was empty (the key text plays no role). *)
Definition listing_key : string := "fastapi-cache::list_items".

Definition empty_listing_cache : Cache := {[ listing_key := [] ]}.

(** Tokens signed with the service key under [sample_primitives]: one
    whose payload names no subject, one for the deactivated account and
    one for the read-only account, each granted the read scope. *)
Definition token_without_subject : Token :=
  jwt.encode (H := sample_primitives)
    {| sub := None; scopes := Some ["items:read"]; exp := None |}
    SECRET_KEY ALGORITHM.

Definition bob_token : Token :=
  create_access_token (H := sample_primitives)
    {| sub := Some "bob"; scopes := Some ["items:read"]; exp := None |}
    ACCESS_TOKEN_EXPIRE_MINUTES 1000.

Definition alice_token : Token :=
  create_access_token (H := sample_primitives)
    {| sub := Some "alice"; scopes := Some ["items:read"]; exp := None |}
    ACCESS_TOKEN_EXPIRE_MINUTES 1000.

Definition claims_of (t : Token) : Claims :=
  match t with
  | JWS _ claims _ => claims
  | Malformed _ => {| sub := None; scopes := None; exp := None |}
  end.




(** The token-exchange form of the read-only account asking for the
    write scope. *)
Definition alice_asks_write : OAuth2PasswordRequestForm :=
  {| form_username := "alice"; form_password := "alicepw";
     form_scopes := ["items:write"] |}.

(** The signup body of an account granted the read scope only. *)
Definition alice_signup : UserCreate.t :=
  {| UserCreate.username := "alice";
     UserCreate.full_name := None;
     UserCreate.email := None;
     UserCreate.is_active := true;
     UserCreate.scopes := ["items:read"];
     UserCreate.password := "alicepw" |}.

(** Stand-ins for the text operations: a pattern matches the value it
    spells between its percent signs, and lowering leaves text as it is. *)
Definition sample_text_ops : TextOps := {|
  ilike := fun value pattern => String.eqb ("%" ++ value ++ "%") pattern;
  str_lower := fun s => s
|}.

(** A store of three items, ids 1 to 3. *)
Definition speaker_row : Items.row :=
  {| Items.row_id := 2; Items.row_name := "Bluetooth Speaker";
     Items.row_description := Some "Portable speaker with 10 hours battery life";
     Items.row_price := 1599%float;
     Items.row_tags := Some ["audio"; "portable"; "bluetooth"];
     Items.row_in_stock := false; Items.row_created_at := 1700000001 |}.

Definition shirt_row : Items.row :=
  {| Items.row_id := 3; Items.row_name := "Cotton T-shirt";
     Items.row_description := Some "100% cotton, unisex, size M";
     Items.row_price := 499%float;
     Items.row_tags := Some ["clothing"; "t-shirt"; "cotton"];
     Items.row_in_stock := true; Items.row_created_at := 1700000002 |}.

Definition three_items_db : Database :=
  {| users := []; users_seq := 0;
     items := {[ 1 := mouse_row; 2 := speaker_row; 3 := shirt_row ]};
     items_seq := 3 |}.

(** A hasher that verifies the hashes it makes, whatever the salt: the
    hash is the secret itself; it refuses the same secrets. *)
Definition plain_primitives : Primitives := {|
  hmac_sha256 := fun key input => key ++ "/" ++ fst input;
  bcrypt_hash := fun salt secret =>
    if has_nul secret then Raise null_password_error
    else Ok secret;
  bcrypt_verify := fun plain hashed =>
    if has_nul plain then Raise null_password_error
    else Ok (String.eqb plain hashed)
|}.

(** The signup body of an account whose password holds a NUL character. *)
Definition carol_signup : UserCreate.t :=
  {| UserCreate.username := "carol";
     UserCreate.full_name := None;
     UserCreate.email := None;
     UserCreate.is_active := true;
     UserCreate.scopes := [];
     UserCreate.password := nul_password |}.

(** A reading of token text that takes every text as malformed. *)
Definition sample_wire : TokenWire := {| parse_token := Malformed |}.

(** * Properties *)

(** ** Auxiliary facts about the embedding *)

Lemma list_or_nil {A : Type} (l : list A) : list_or l [] = l.
Proof. by destruct l. Qed.

Lemma to_in_db_id (user : UserInDB.t) : SQLUserRepo._to_in_db user = user.
Proof. by destruct user. Qed.

(** Closes a goal [x ∉ [a; b; ...]] over closed terms. *)
Ltac not_in_list :=
  let Hin := fresh "Hin" in
  intros Hin;
  repeat (apply elem_of_cons in Hin as [Hin|Hin]; [discriminate Hin|]);
  by apply elem_of_nil in Hin.

Section ScopeTest.
Variables granted required : list string.

Lemma forallb_elem_of :
  forallb (fun scope => bool_decide (scope ∈ granted)) required = true
  <-> required ⊆ granted.
Proof.
  rewrite forallb_forall. split.
  - intros Hall scope Hin. apply list_elem_of_In in Hin.
    specialize (Hall scope Hin). by apply bool_decide_eq_true_1 in Hall.
  - intros Hsub scope Hin. apply bool_decide_eq_true_2, Hsub.
    by apply list_elem_of_In.
Qed.

Lemma scope_gate_open :
  required ⊆ granted -> scopes_insufficient required granted = false.
Proof.
  intros Hsub. unfold scopes_insufficient.
  apply forallb_elem_of in Hsub. rewrite Hsub. by rewrite andb_false_r.
Qed.

Lemma scope_gate_closed (scope : string) :
  scope ∈ required -> scope ∉ granted ->
  scopes_insufficient required granted = true.
Proof.
  intros Hin Hout. unfold scopes_insufficient.
  assert (Hall : forallb (fun scope => bool_decide (scope ∈ granted)) required = false).
  { apply not_true_is_false. intros Hall.
    apply forallb_elem_of in Hall. by apply Hout, Hall. }
  rewrite Hall, bool_decide_eq_false_2; [done|].
  intros ->. by apply elem_of_nil in Hin.
Qed.

(** The gate is closed exactly when some required scope is not granted. *)
Lemma scopes_insufficient_spec :
  scopes_insufficient required granted = true
  <-> exists scope, scope ∈ required /\ scope ∉ granted.
Proof.
  split.
  - intros Hclosed.
    destruct (decide (Forall (fun scope => scope ∈ granted) required)) as [Hall|Hnot].
    + rewrite scope_gate_open in Hclosed; [done|].
      intros scope Hin. by apply (proj1 (Forall_forall _ _) Hall).
    + apply not_Forall_Exists in Hnot; [|apply _].
      apply Exists_exists in Hnot as (scope & Hin & Hout). by exists scope.
  - intros (scope & Hin & Hout). by apply scope_gate_closed with scope.
Qed.
End ScopeTest.

Create HintDb authz.
#[local] Hint Resolve scope_gate_open scope_gate_closed : authz.

Lemma liveness_outcome_not_forbidden (username : string) (repo : Database) (e : exn) :
  liveness_outcome username repo = Raise e -> e = unauthorized_exception.
Proof.
  unfold liveness_outcome.
  destruct (SQLUserRepo.get_by_username username repo) as [user|];
    [destruct (UserInDB.is_active user)|]; congruence.
Qed.

(** ** The Authorizer *)

Section Authorizer.
Context `{Primitives}.
Variables (security_scopes : list string) (token : Token) (repo : Database) (now : Z).


(** So is a token whose payload names no subject. *)
Lemma get_current_user_no_subject (payload : Claims) :
  jwt.decode token SECRET_KEY [ALGORITHM] now = inr payload ->
  sub payload = None ->
  get_current_user security_scopes token repo now = Raise unauthorized_exception.
Proof. intros Hdecode Hsub. unfold get_current_user. by rewrite Hdecode, Hsub. Qed.

Section Decoded.
(** The token decodes (correct signature, not expired) to a payload that
    names a subject. *)
Variables (payload : Claims) (username : string).
Hypothesis Hdecode : jwt.decode token SECRET_KEY [ALGORITHM] now = inr payload.
Hypothesis Hsub : sub payload = Some username.

(** The outcome is then decided by the scope gate and, behind it, by the
    store lookup. *)
Lemma get_current_user_decoded :
  get_current_user security_scopes token repo now =
    if scopes_insufficient security_scopes (granted_scopes payload)
    then Raise (forbidden_exception security_scopes)
    else liveness_outcome username repo.
Proof.
  unfold get_current_user, liveness_outcome, scopes_insufficient, granted_scopes.
  rewrite Hdecode, Hsub, list_or_nil.
  destruct (negb _ && negb _); [reflexivity|].
  destruct (SQLUserRepo.get_by_username username repo) as [user|]; [|reflexivity].
  rewrite to_in_db_id. by destruct (UserInDB.is_active user).
Qed.

(** C1, as amended. For every call to [get_current_user] with a token
    that decodes (correct signature, not expired) to a payload carrying a
    subject: when every scope the endpoint requires is among the token's
    granted scopes (in particular when none is required) the scope gate
    lets the call through, and the outcome is the one the store lookup
    decides, never a 403; when some required scope is missing from the
    token's granted scopes the call raises the 403 [forbidden_exception],
    whatever the store holds, and so never a 401. *)
Theorem scope_gate_monotonic :
  (security_scopes ⊆ granted_scopes payload ->
     get_current_user security_scopes token repo now = liveness_outcome username repo
     /\ forall e, get_current_user security_scopes token repo now = Raise e ->
                  response_status e <> HTTP_403_FORBIDDEN)
  /\ (security_scopes = [] ->
        get_current_user security_scopes token repo now
        = liveness_outcome username repo)
  /\ (forall scope, scope ∈ security_scopes -> scope ∉ granted_scopes payload ->
        get_current_user security_scopes token repo now
        = Raise (forbidden_exception security_scopes)
        /\ response_status (forbidden_exception security_scopes) = HTTP_403_FORBIDDEN
        /\ response_status (forbidden_exception security_scopes)
           <> HTTP_401_UNAUTHORIZED).
Proof.
  assert (Hopen : security_scopes ⊆ granted_scopes payload ->
            get_current_user security_scopes token repo now
            = liveness_outcome username repo).
  { intros Hsubset. rewrite get_current_user_decoded.
    replace (scopes_insufficient security_scopes (granted_scopes payload)) with false
      by (symmetry; auto with authz).
    reflexivity. }
  split; [|split].
  - intros Hsubset. split; [by apply Hopen|].
    intros e He. rewrite (Hopen Hsubset) in He.
    apply liveness_outcome_not_forbidden in He. by subst e.
  - intros Hnone. apply Hopen. rewrite Hnone. intros scope Hin.
    by apply elem_of_nil in Hin.
  - intros scope Hin Hout. split; [|done].
    by rewrite get_current_user_decoded, (scope_gate_closed _ _ scope).
Qed.

(** C2, as amended. For a token that decodes to a payload whose subject
    is [username] and whose granted scopes include every scope the
    endpoint requires: when the store holds no user of that name, or holds
    one with [is_active] false, the call raises the 401
    [unauthorized_exception]. The store is an argument of the call: the
    lookup is made anew each time, behind the token and scope checks. *)
Theorem inactive_or_unknown_unauthorized :
  security_scopes ⊆ granted_scopes payload ->
  (SQLUserRepo.get_by_username username repo = None
   \/ exists user, SQLUserRepo.get_by_username username repo = Some user
                   /\ UserInDB.is_active user = false) ->
  get_current_user security_scopes token repo now = Raise unauthorized_exception
  /\ response_status unauthorized_exception = HTTP_401_UNAUTHORIZED.
Proof.
  intros Hsubset Hstore. split; [|done].
  rewrite get_current_user_decoded, scope_gate_open by done.
  unfold liveness_outcome.
  destruct Hstore as [-> | (user & -> & ->)]; reflexivity.
Qed.
End Decoded.

(** The 401 and the 403 of [get_current_user] carry a challenge header,
    the 403 with the scopes the endpoint requires. *)
Lemma get_current_user_headers (e : exn) :
  get_current_user security_scopes token repo now = Raise e ->
  (e = unauthorized_exception
   /\ response_header e "WWW-Authenticate" = Some "Bearer")
  \/ (e = forbidden_exception security_scopes
      /\ response_header e "WWW-Authenticate" =
           Some ("Bearer scope=" ++ dquote
                 ++ String.concat " " security_scopes ++ dquote)).
Proof.
  unfold get_current_user.
  destruct (jwt.decode _ _ _ _) as [err|claims]; [intros [= <-]; by left|].
  destruct (sub claims) as [name|]; [|intros [= <-]; by left].
  destruct (negb _ && negb _); [intros [= <-]; by right|].
  destruct (SQLUserRepo.get_by_username _ _) as [user|]; [|intros [= <-]; by left].
  destruct (negb _); [intros [= <-]; by left|done].
Qed.

(** Whatever [get_current_user] returns carries the hash of a stored row. *)
Lemma get_current_user_returns_hash (user : UserInDB.t) :
  get_current_user security_scopes token repo now = Ok user ->
  exists obj, obj ∈ users repo
              /\ UserInDB.hashed_password user = Users.hashed_password obj.
Proof.
  unfold get_current_user.
  destruct (jwt.decode _ _ _ _) as [err|claims]; [done|].
  destruct (sub claims) as [name|]; [|done].
  destruct (negb _ && negb _); [done|].
  unfold SQLUserRepo.get_by_username.
  destruct (head _) as [obj|] eqn:Hhead; [|done].
  destruct (negb _); [done|]. intros [= <-].
  apply head_Some_elem_of in Hhead. unfold SQLUserRepo.select_by_username in Hhead.
  apply list_elem_of_filter in Hhead as [_ Hin]. by exists obj.
Qed.
End Authorizer.

(** ** The token codec *)

Lemma decode_encode `{Primitives} (claims : Claims) (now : Z) :
  jwt.decode (jwt.encode claims SECRET_KEY ALGORITHM) SECRET_KEY [ALGORITHM] now =
    match exp claims with
    | Some e => if Z.ltb e now then inl ExpiredSignatureError else inr claims
    | None => inr claims
    end.
Proof.
  unfold jwt.decode, jwt.encode.
  rewrite bool_decide_eq_true_2 by apply list_elem_of_here.
  by rewrite String.eqb_refl.
Qed.

Lemma create_access_token_eq `{Primitives} (data : Claims) (expires_minutes now : Z) :
  create_access_token data expires_minutes now =
    jwt.encode
      {| sub := sub data; scopes := scopes data;
         exp := Some (now + 60 * expires_minutes) |} SECRET_KEY ALGORITHM.
Proof. reflexivity. Qed.


(** ** The user repository and signup *)

Lemma select_by_username_app (username : string) (rows : list Users.t) (seq : Z)
    (obj : Users.t) (db : Database) :
  SQLUserRepo.select_by_username username (set_users (rows ++ [obj]) seq db) =
    (filter (fun o => Users.username o = username) rows
     ++ (if decide (Users.username obj = username) then [obj] else []))%list.
Proof.
  unfold SQLUserRepo.select_by_username. cbn [users set_users].
  rewrite filter_app, filter_cons, filter_nil. by destruct (decide _).
Qed.

(** What [create] does once the hasher has returned. *)
Lemma create_hashed `{Primitives} (salt : string) (payload : UserCreate.t)
    (db : Database) (hashed : string) :
  get_password_hash salt (UserCreate.password payload) = Ok hashed ->
  SQLUserRepo.create salt payload db =
    let obj :=
      {| Users.id := users_seq db + 1;
         Users.username := UserCreate.username payload;
         Users.full_name := UserCreate.full_name payload;
         Users.email := UserCreate.email payload;
         Users.is_active := UserCreate.is_active payload;
         Users.scopes := UserCreate.scopes payload;
         Users.hashed_password := hashed |} in
    match SQLUserRepo.select_by_username (UserCreate.username payload) db with
    | _ :: _ => (Raise IntegrityError, db)
    | [] =>
        (Ok (SQLUserRepo._to_read obj), set_users (users db ++ [obj]) (Users.id obj) db)
    end.
Proof.
  intros Hhash. unfold SQLUserRepo.create. rewrite Hhash. cbn [Users.username].
  by rewrite list_or_nil.
Qed.

(** An exception of the hasher leaves [create] with the store untouched;
    [signup] answers a [ValueError] among them with its 400 and hands on
    the others. *)
Lemma create_hasher_raises `{Primitives} (salt : string) (payload : UserCreate.t)
    (db : Database) (e : exn) :
  get_password_hash salt (UserCreate.password payload) = Raise e ->
  SQLUserRepo.create salt payload db = (Raise e, db)
  /\ signup salt payload db =
       (Raise match e with
              | ValueError _ =>
                  HTTPException HTTP_400_BAD_REQUEST "User already exists." None
              | _ => e
              end, db).
Proof.
  intros Hhash. unfold signup, SQLUserRepo.create. rewrite Hhash.
  split; [reflexivity|]. by destruct e.
Qed.

(** Once the hasher has returned, [create] raises no [ValueError] and
    [signup] hands on whatever [create] returns. *)
Lemma signup_is_create `{Primitives} (salt : string) (payload : UserCreate.t)
    (db : Database) (hashed : string) :
  get_password_hash salt (UserCreate.password payload) = Ok hashed ->
  signup salt payload db = SQLUserRepo.create salt payload db.
Proof.
  intros Hhash. unfold signup. rewrite (create_hashed _ _ _ _ Hhash). cbv zeta.
  by destruct (SQLUserRepo.select_by_username _ db).
Qed.

(** After a [create] the hasher let through, the name is present in the
    table, whether the call inserted it or was refused. *)
Lemma create_leaves_username `{Primitives} (salt : string) (payload : UserCreate.t)
    (db : Database) (hashed : string) :
  get_password_hash salt (UserCreate.password payload) = Ok hashed ->
  SQLUserRepo.select_by_username (UserCreate.username payload)
    (SQLUserRepo.create salt payload db).2 <> [].
Proof.
  intros Hhash. rewrite (create_hashed _ _ _ _ Hhash). cbv zeta.
  cbn [Users.username Users.id].
  destruct (SQLUserRepo.select_by_username (UserCreate.username payload) db)
    as [|row rows] eqn:Hsel; cbn [snd].
  - rewrite select_by_username_app. cbn [Users.username].
    rewrite decide_True by reflexivity.
    intros Hnil. by apply app_eq_nil in Hnil as [_ ?].
  - by rewrite Hsel.
Qed.

Lemma create_duplicate `{Primitives} (salt : string) (payload : UserCreate.t)
    (db : Database) (hashed : string) :
  get_password_hash salt (UserCreate.password payload) = Ok hashed ->
  SQLUserRepo.select_by_username (UserCreate.username payload) db <> [] ->
  SQLUserRepo.create salt payload db = (Raise IntegrityError, db).
Proof.
  intros Hhash Hpresent. rewrite (create_hashed _ _ _ _ Hhash). cbv zeta.
  by destruct (SQLUserRepo.select_by_username (UserCreate.username payload) db).
Qed.

(** For a name not yet in the table and a password the hasher accepts,
    [create] succeeds, appends one row, and usernames stay pairwise
    distinct. *)
Lemma create_fresh `{Primitives} (salt : string) (payload : UserCreate.t)
    (db : Database) (hashed : string) :
  get_password_hash salt (UserCreate.password payload) = Ok hashed ->
  SQLUserRepo.select_by_username (UserCreate.username payload) db = [] ->
  NoDup (Users.username <$> users db) ->
  exists obj,
    signup salt payload db =
      (Ok (SQLUserRepo._to_read obj), set_users (users db ++ [obj]) (Users.id obj) db)
    /\ Users.username obj = UserCreate.username payload
    /\ Users.hashed_password obj = hashed
    /\ NoDup (Users.username <$> users (signup salt payload db).2).
Proof.
  intros Hhash Hfresh Hnodup.
  rewrite (signup_is_create _ _ _ _ Hhash), (create_hashed _ _ _ _ Hhash). cbv zeta.
  rewrite Hfresh. eexists.
  split; [reflexivity|]. split; [reflexivity|]. split; [reflexivity|].
  cbn [snd users set_users]. rewrite fmap_app. cbn [fmap list_fmap Users.username].
  apply NoDup_app. split; [done|]. split; [|apply NoDup_singleton].
  intros name Hin Hnew. apply list_elem_of_singleton in Hnew. subst name.
  apply list_elem_of_fmap in Hin as (row & Hname & Hrow).
  assert (Hsel : row ∈ SQLUserRepo.select_by_username (UserCreate.username payload) db).
  { unfold SQLUserRepo.select_by_username. apply list_elem_of_filter. by split. }
  rewrite Hfresh in Hsel. by apply elem_of_nil in Hsel.
Qed.

(** C4, on the code. Signing up the same payload a second time does not
    answer 400: whenever the hasher accepts the password (as it did for
    the first signup to go through), [SQLUserRepo.create] raises
    [IntegrityError], which the [except ValueError] of [signup] does not
    catch, so the exception leaves the handler and the client is answered
    500. The only [ValueError] that can leave [create] is one the hasher
    raises, and [signup] answers that one with its 400, whether or not
    the name is taken. *)
Theorem signup_twice_integrity_error `{Primitives} (salt1 salt2 : string)
    (payload : UserCreate.t) (db : Database) :
  (forall hashed1 hashed2,
     get_password_hash salt1 (UserCreate.password payload) = Ok hashed1 ->
     get_password_hash salt2 (UserCreate.password payload) = Ok hashed2 ->
     let db1 := (signup salt1 payload db).2 in
     signup salt2 payload db1 = (Raise IntegrityError, db1)
     /\ response_status IntegrityError = 500
     /\ response_status IntegrityError <> HTTP_400_BAD_REQUEST)
  /\ (forall msg,
        (SQLUserRepo.create salt1 payload db).1 = Raise (ValueError msg) ->
        get_password_hash salt1 (UserCreate.password payload) = Raise (ValueError msg))
  /\ (forall msg,
        get_password_hash salt1 (UserCreate.password payload) = Raise (ValueError msg) ->
        signup salt1 payload db =
          (Raise (HTTPException HTTP_400_BAD_REQUEST "User already exists." None), db)).
Proof.
  split; [|split].
  - intros hashed1 hashed2 Hhash1 Hhash2 db1. subst db1. split; [|done].
    rewrite (signup_is_create _ _ _ _ Hhash1), (signup_is_create _ _ _ _ Hhash2).
    apply create_duplicate with hashed2; [done|].
    by apply create_leaves_username with hashed1.
  - intros msg. unfold SQLUserRepo.create.
    destruct (get_password_hash salt1 (UserCreate.password payload)) as [hashed|e];
      [|by intros [= ->]].
    cbn [Users.username]. by destruct (SQLUserRepo.select_by_username _ db).
  - intros msg Hhash. by destruct (create_hasher_raises _ _ db _ Hhash) as [_ ->].
Qed.

(** ** The item repository *)

(** The assignments of [update], field by field. *)
Lemma setattr_dump (changes : ItemUpdate.t) (obj : Items.t) :
  fold_left setattr (model_dump_exclude_unset changes) obj =
    {| Items.id := Items.id obj;
       Items.name :=
         match ItemUpdate.name changes with Present v => v | Absent => Items.name obj end;
       Items.description :=
         match ItemUpdate.description changes with
         | Present v => v | Absent => Items.description obj end;
       Items.price :=
         match ItemUpdate.price changes with Present v => v | Absent => Items.price obj end;
       Items.tags :=
         match ItemUpdate.tags changes with Present v => v | Absent => Items.tags obj end;
       Items.in_stock :=
         match ItemUpdate.in_stock changes with
         | Present v => v | Absent => Items.in_stock obj end;
       Items.created_at := Items.created_at obj |}.
Proof.
  destruct obj, changes as [[|?] [|?] [|?] [|?] [|?]]; reflexivity.
Qed.

Lemma get_existing (item_id : Z) (db : Database) (item : ItemRead.t) :
  SQLItemRepo.get item_id db = Ok (Some item) ->
  sqlite_integer item_id = true
  /\ exists r tg,
       items db !! item_id = Some r
       /\ Items.row_tags r = Some tg
       /\ item = {| ItemRead.id := Items.row_id r;
                    ItemRead.name := Items.row_name r;
                    ItemRead.description := Items.row_description r;
                    ItemRead.price := Items.row_price r;
                    ItemRead.tags := tg;
                    ItemRead.in_stock := Items.row_in_stock r;
                    ItemRead.created_at := Items.row_created_at r |}.
Proof.
  unfold SQLItemRepo.get. destruct (sqlite_integer item_id); [|done].
  cbn [negb]. intros Hget. split; [done|]. revert Hget.
  destruct (items db !! item_id) as [r|]; [|done].
  unfold SQLItemRepo._to_read. destruct r as [i n d p [tg|] s c]; cbn; [|done].
  intros [= <-]. by eexists _, _.
Qed.

(** [get] on an id that fits: the row under the id, read. *)
Lemma get_in_range (item_id : Z) (db : Database) :
  sqlite_integer item_id = true ->
  SQLItemRepo.get item_id db =
    match items db !! item_id with
    | None => Ok None
    | Some res => Some <$> SQLItemRepo._to_read (Items.load res)
    end.
Proof. intros Hfits. unfold SQLItemRepo.get. by rewrite Hfits. Qed.





(** ** The Authenticator *)

Lemma head_select_by_username (username : string) (repo : Database) (obj : Users.t) :
  head (SQLUserRepo.select_by_username username repo) = Some obj ->
  obj ∈ users repo /\ Users.username obj = username.
Proof.
  intros Hhead. apply head_Some_elem_of in Hhead.
  unfold SQLUserRepo.select_by_username in Hhead.
  by apply list_elem_of_filter in Hhead as [? ?].
Qed.

Lemma select_by_username_nil (username : string) (repo : Database) :
  SQLUserRepo.select_by_username username repo = []
  <-> username ∉ (Users.username <$> users repo).
Proof.
  unfold SQLUserRepo.select_by_username. split.
  - intros Hnil Hin. apply list_elem_of_fmap in Hin as (obj & Hname & Hobj).
    assert (Hsel : obj ∈ filter (fun o => Users.username o = username) (users repo))
      by (by apply list_elem_of_filter).
    rewrite Hnil in Hsel. by apply elem_of_nil in Hsel.
  - intros Hout.
    destruct (filter _ (users repo)) as [|obj rest] eqn:Hsel; [done|].
    exfalso. apply Hout.
    assert (Hin : obj ∈ filter (fun o => Users.username o = username) (users repo))
      by (rewrite Hsel; apply list_elem_of_here).
    apply list_elem_of_filter in Hin as [<- Hin].
    apply list_elem_of_fmap. by exists obj.
Qed.

(** C6, as amended. Whenever the hasher's verification returns a
    verdict, [authenticate_user] returns a record exactly when the table
    holds a row under the username and the password verifies against
    that row's hash, and the record then carries every attribute of the
    row, [scopes], [is_active] and [hashed_password] included; it returns
    [None] when no row has the username, without asking the hasher, and
    [None] when the row is there but the password does not verify. When
    the verification raises, for a password the hasher refuses,
    [authenticate_user] raises the same exception. *)
Theorem authenticate_user_spec `{Primitives} (repo : Database)
    (username password : string) :
  (forall user,
     authenticate_user repo username password = Ok (Some user) <->
     exists obj,
       head (SQLUserRepo.select_by_username username repo) = Some obj
       /\ verify_password password (Users.hashed_password obj) = Ok true
       /\ user = {| UserInDB.username := Users.username obj;
                    UserInDB.full_name := Users.full_name obj;
                    UserInDB.email := Users.email obj;
                    UserInDB.is_active := Users.is_active obj;
                    UserInDB.scopes := Users.scopes obj;
                    UserInDB.hashed_password := Users.hashed_password obj |})
  /\ (username ∉ (Users.username <$> users repo) ->
        authenticate_user repo username password = Ok None)
  /\ (forall obj,
        head (SQLUserRepo.select_by_username username repo) = Some obj ->
        verify_password password (Users.hashed_password obj) = Ok false ->
        authenticate_user repo username password = Ok None)
  /\ (forall obj e,
        head (SQLUserRepo.select_by_username username repo) = Some obj ->
        verify_password password (Users.hashed_password obj) = Raise e ->
        authenticate_user repo username password = Raise e).
Proof.
  unfold authenticate_user, SQLUserRepo.get_by_username. split; [|split; [|split]].
  - intros user. split.
    + destruct (head _) as [obj|]; [|done]. cbn.
      destruct (verify_password _ _) as [[|]|e] eqn:Hverify; [|done|done]. cbn.
      intros [= <-]. by exists obj.
    + intros (obj & -> & Hverify & ->). cbn. by rewrite Hverify.
  - intros Hout. apply select_by_username_nil in Hout. by rewrite Hout.
  - intros obj -> Hverify. cbn. by rewrite Hverify.
  - intros obj e -> Hverify. cbn. by rewrite Hverify.
Qed.

(** ** The token-exchange endpoint *)

Lemma authenticate_user_stored `{Primitives} (repo : Database)
    (username password : string) (user : UserInDB.t) :
  authenticate_user repo username password = Ok (Some user) ->
  SQLUserRepo.get_by_username (UserInDB.username user) repo = Some user.
Proof.
  unfold authenticate_user.
  destruct (SQLUserRepo.get_by_username username repo) as [found|] eqn:Hget; [|done].
  destruct (verify_password _ _) as [[|]|e]; [|done|done]. cbn. intros [= <-].
  unfold SQLUserRepo.get_by_username in Hget |- *.
  destruct (head (SQLUserRepo.select_by_username username repo)) as [obj|] eqn:Hhead;
    [|done].
  injection Hget as <-. cbn.
  apply head_select_by_username in Hhead as Hobj. destruct Hobj as [_ ->].
  by rewrite Hhead.
Qed.

(** What a successful token exchange issues, and what the issued token
    is good for. *)
Lemma login_issues_requested_scopes `{Primitives} (form_data : OAuth2PasswordRequestForm)
    (repo : Database) (now : Z) (user : UserInDB.t) :
  authenticate_user repo (form_username form_data) (form_password form_data)
    = Ok (Some user) ->
  exists token payload,
    login_for_access_token form_data repo now
      = Ok {| access_token := token; token_type := "bearer" |}
    /\ jwt.decode token SECRET_KEY [ALGORITHM] now = inr payload
    /\ sub payload = Some (UserInDB.username user)
    /\ scopes payload =
         Some (match form_scopes form_data with
               | [] => UserInDB.scopes user
               | _ :: _ => form_scopes form_data
               end)
    /\ forall required t,
         form_scopes form_data <> [] ->
         required ⊆ form_scopes form_data ->
         t <= now + 60 * ACCESS_TOKEN_EXPIRE_MINUTES ->
         get_current_user required token repo t =
           (if UserInDB.is_active user then Ok user else Raise unauthorized_exception)
         /\ forall e, get_current_user required token repo t = Raise e ->
                      response_status e <> HTTP_403_FORBIDDEN.
Proof.
  intros Hauth. unfold login_for_access_token. rewrite Hauth. cbn [mbind result_bind].
  rewrite create_access_token_eq. cbn [sub scopes].
  set (claims := {| sub := Some (UserInDB.username user);
                    scopes := Some (list_or (form_scopes form_data) (UserInDB.scopes user));
                    exp := Some (now + 60 * ACCESS_TOKEN_EXPIRE_MINUTES) |}).
  assert (Hlive : forall t, t <= now + 60 * ACCESS_TOKEN_EXPIRE_MINUTES ->
            jwt.decode (jwt.encode claims SECRET_KEY ALGORITHM) SECRET_KEY [ALGORITHM] t
            = inr claims).
  { intros t Ht. rewrite decode_encode. cbn [exp claims].
    by destruct (Z.ltb_spec (now + 60 * ACCESS_TOKEN_EXPIRE_MINUTES) t); [lia|]. }
  exists (jwt.encode claims SECRET_KEY ALGORITHM), claims.
  split; [reflexivity|]. split.
  { apply Hlive. unfold ACCESS_TOKEN_EXPIRE_MINUTES. lia. }
  split; [reflexivity|]. split.
  { cbn [claims scopes]. by destruct (form_scopes form_data). }
  intros required t Hlisted Hsubset Ht.
  assert (Hrun : get_current_user required (jwt.encode claims SECRET_KEY ALGORITHM) repo t
                 = liveness_outcome (UserInDB.username user) repo).
  { rewrite (get_current_user_decoded _ _ _ _ claims (UserInDB.username user));
      [|by apply Hlive|reflexivity].
    rewrite scope_gate_open; [done|].
    unfold granted_scopes. cbn [claims scopes default].
    by destruct (form_scopes form_data). }
  rewrite Hrun. unfold liveness_outcome.
  rewrite (authenticate_user_stored _ _ _ _ Hauth). split; [done|].
  destruct (UserInDB.is_active user); [done|]. by intros e [= <-].
Qed.

(** C10. A token exchange succeeds only when the credentials
    authenticate, and then the token it issues decodes to a payload whose
    subject is the user's name and whose scopes are the scopes of the form
    when the form lists any, the user's stored scopes otherwise. The scopes of
    the form are not compared with the stored ones: an endpoint that
    requires only scopes the form listed lets the token through its scope
    gate for as long as the token lives. So, for any password that the
    hasher accepts and verifies against the hash it made, there is a user
    with that password, granted [G], and a form asking for scopes [R] not
    contained in [G] such that the issued token carries [R] and
    [get_current_user], for an endpoint requiring [R], returns the user. *)
Theorem login_scopes_unchecked `{Primitives} :
  (forall form_data repo now response,
     login_for_access_token form_data repo now = Ok response ->
     exists user,
       authenticate_user repo (form_username form_data) (form_password form_data)
         = Ok (Some user))
  /\ (forall form_data repo now user,
     authenticate_user repo (form_username form_data) (form_password form_data)
       = Ok (Some user) ->
     exists token payload,
       login_for_access_token form_data repo now
         = Ok {| access_token := token; token_type := "bearer" |}
       /\ jwt.decode token SECRET_KEY [ALGORITHM] now = inr payload
       /\ sub payload = Some (UserInDB.username user)
       /\ scopes payload =
            Some (match form_scopes form_data with
                  | [] => UserInDB.scopes user
                  | _ :: _ => form_scopes form_data
                  end)
       /\ forall required t,
            form_scopes form_data <> [] ->
            required ⊆ form_scopes form_data ->
            t <= now + 60 * ACCESS_TOKEN_EXPIRE_MINUTES ->
            forall e, get_current_user required token repo t = Raise e ->
                      response_status e <> HTTP_403_FORBIDDEN)
  /\ (forall salt secret hashed,
        get_password_hash salt secret = Ok hashed ->
        verify_password secret hashed = Ok true ->
        exists repo form_data now user token payload,
          form_password form_data = secret
          /\ authenticate_user repo (form_username form_data) (form_password form_data)
             = Ok (Some user)
          /\ ~ (form_scopes form_data ⊆ UserInDB.scopes user)
          /\ login_for_access_token form_data repo now
             = Ok {| access_token := token; token_type := "bearer" |}
          /\ jwt.decode token SECRET_KEY [ALGORITHM] now = inr payload
          /\ scopes payload = Some (form_scopes form_data)
          /\ get_current_user (form_scopes form_data) token repo now = Ok user).
Proof.
  split; [|split].
  - intros form_data repo now response. unfold login_for_access_token.
    destruct (authenticate_user _ _ _) as [[user|]|e]; [by exists user|done|done].
  - intros form_data repo now user Hauth.
    destruct (login_issues_requested_scopes form_data repo now user Hauth)
      as (token & payload & Hlogin & Hdecode & Hsub & Hscopes & Hgate).
    exists token, payload. repeat (split; [assumption|]).
    intros required t Hlisted Hsubset Ht. by apply Hgate.
  - intros salt secret hashed Hhash Hverify.
    set (body := {| UserCreate.username := "alice";
                    UserCreate.full_name := None;
                    UserCreate.email := None;
                    UserCreate.is_active := true;
                    UserCreate.scopes := ["items:read"];
                    UserCreate.password := secret |}).
    set (form := {| form_username := "alice"; form_password := secret;
                    form_scopes := ["items:write"] |}).
    set (repo := (signup salt body empty_db).2).
    set (user := {| UserInDB.username := "alice";
                    UserInDB.full_name := None;
                    UserInDB.email := None;
                    UserInDB.is_active := true;
                    UserInDB.scopes := ["items:read"];
                    UserInDB.hashed_password := hashed |}).
    assert (Hget : SQLUserRepo.get_by_username "alice" repo = Some user).
    { subst repo. rewrite (signup_is_create salt body empty_db hashed Hhash).
      by rewrite (create_hashed salt body empty_db hashed Hhash). }
    assert (Hauth : authenticate_user repo "alice" secret = Ok (Some user)).
    { unfold authenticate_user. rewrite Hget.
      change (UserInDB.hashed_password user) with hashed.
      by rewrite Hverify. }
    destruct (login_issues_requested_scopes form repo 0 user Hauth)
      as (token & payload & Hlogin & Hdecode & _ & Hscopes & Hgate).
    exists repo, form, 0, user, token, payload.
    split; [reflexivity|]. split; [exact Hauth|]. split.
    { intros Hsub. specialize (Hsub "items:write" (list_elem_of_here _ _)).
      apply elem_of_cons in Hsub as [Heq|Hin]; [discriminate Heq|].
      by apply elem_of_nil in Hin. }
    split; [exact Hlogin|]. split; [exact Hdecode|]. split; [exact Hscopes|].
    apply (Hgate ["items:write"] 0); [discriminate|by intros scope Hin|].
    unfold ACCESS_TOKEN_EXPIRE_MINUTES. lia.
Qed.

(** C8, on the code. A failed token exchange is answered 401 with no
    headers at all: on any store, whenever the credentials do not
    authenticate (no such user, or a password the hasher finds wrong),
    [login_for_access_token] raises an exception of status 401 that has
    no [WWW-Authenticate] header; whenever it raises at all, the
    exception is that one or the one the hasher raised; on the empty
    store it raises the 401 for every form. *)
Theorem login_failure_has_no_challenge `{Primitives}
    (form_data : OAuth2PasswordRequestForm) (repo : Database) (now : Z) :
  let failure :=
    HTTPException HTTP_401_UNAUTHORIZED "Incorrect username or password." None in
  (authenticate_user repo (form_username form_data) (form_password form_data) = Ok None ->
     login_for_access_token form_data repo now = Raise failure)
  /\ (forall e,
        login_for_access_token form_data repo now = Raise e ->
        e = failure
        \/ authenticate_user repo (form_username form_data) (form_password form_data)
           = Raise e)
  /\ response_status failure = HTTP_401_UNAUTHORIZED
  /\ response_header failure "WWW-Authenticate" = None
  /\ login_for_access_token form_data empty_db now = Raise failure.
Proof.
  intros failure. subst failure. unfold login_for_access_token.
  split; [|split; [|by repeat split]].
  - by intros ->.
  - intros e.
    destruct (authenticate_user _ _ _) as [[user|]|e']; cbn; intros He;
      [done|left|right]; by simplify_eq.
Qed.

(** ** Cache invalidation on writes *)

(** A completed single create or partial update leaves the cache empty. *)
Lemma create_item_clears (now : Z) (payload : ItemCreate.t) (repo repo' : Database)
    (cache cache' : Cache) (item : ItemRead.t) :
  v2.create_item now payload repo cache = (Ok item, repo', cache') -> cache' = ∅.
Proof.
  unfold v2.create_item.
  destruct (SQLItemRepo.create now payload repo) as [[created|e] db'];
    intros Heq; by simplify_eq.
Qed.

Lemma update_item_clears (item updated : ItemRead.t) (changes : ItemUpdate.t)
    (repo repo' : Database) (cache cache' : Cache) :
  v2.update_item item changes repo cache = (Ok updated, repo', cache') -> cache' = ∅.
Proof.
  unfold v2.update_item.
  destruct (SQLItemRepo.update (ItemRead.id item) changes repo) as [[[found|]|e] db'];
    intros Heq; by simplify_eq.
Qed.

(** The v1 write handlers hand the cache on as they found it. *)
Lemma v1_writes_keep_cache (now item_id : Z) (payload : ItemCreate.t)
    (changes : ItemUpdate.t) (repo : Database) (cache : Cache) :
  (v1.create_item now payload repo cache).2 = cache
  /\ (v1.update_item item_id changes repo cache).2 = cache.
Proof.
  split; [reflexivity|]. unfold v1.update_item.
  by destruct (SQLItemRepo.update item_id changes repo) as [[[found|]|e] db'].
Qed.

(** C7, on the code. [create_items_bulk] never touches the cache: it
    returns the cache it was given, for every input. On the empty store
    with the empty listing cached, a bulk create of one item completes,
    the item is in the store, and the cached listing is still the empty
    one; the single create on the same input empties the cache. *)
Theorem create_items_bulk_keeps_cache :
  (forall now payloads repo cache,
     (v2.create_items_bulk now payloads repo cache).2 = cache)
  /\ (exists item repo',
        v2.create_items_bulk 1700000000 [notebook] empty_db empty_listing_cache
          = (Ok [item], repo', empty_listing_cache)
        /\ SQLItemRepo.get 1 repo' = Ok (Some item)
        /\ empty_listing_cache !! listing_key = Some []
        /\ v2.create_item 1700000000 notebook empty_db empty_listing_cache
           = (Ok item, repo', ∅)).
Proof.
  split; [reflexivity|].
  eexists _, _. split; [reflexivity|]. by repeat split.
Qed.

(** ** What the Authorizer returns *)

(** C9, on the code. After the documented signup, with a hasher that
    accepts its password, a call of [get_current_user] with a token for
    that user returns a [UserInDB] whose [hashed_password] is the hash
    the store keeps. *)
Theorem get_current_user_exposes_hash `{Primitives} (salt hashed : string) (now : Z) :
  get_password_hash salt "haridx" = Ok hashed ->
  let repo := (signup salt hari empty_db).2 in
  let token :=
    create_access_token
      {| sub := Some "hari"; scopes := Some ["items:read"; "items:write"]; exp := None |}
      ACCESS_TOKEN_EXPIRE_MINUTES now in
  Users.hashed_password <$> users repo = [hashed]
  /\ get_current_user [] token repo now =
       Ok {| UserInDB.username := "hari";
             UserInDB.full_name := Some "poojary";
             UserInDB.email := Some "hari@example.com";
             UserInDB.is_active := true;
             UserInDB.scopes := ["items:read"; "items:write"];
             UserInDB.hashed_password := hashed |}.
Proof.
  intros Hhash repo token. subst repo token.
  rewrite (signup_is_create salt hari empty_db hashed Hhash).
  rewrite (create_hashed salt hari empty_db hashed Hhash).
  split; [reflexivity|].
  rewrite create_access_token_eq. cbn [sub scopes].
  set (claims := {| sub := Some "hari"; scopes := Some ["items:read"; "items:write"];
                    exp := Some (now + 60 * ACCESS_TOKEN_EXPIRE_MINUTES) |}).
  rewrite (get_current_user_decoded _ _ _ _ claims "hari"); [reflexivity| |reflexivity].
  rewrite decode_encode. cbn [exp claims].
  destruct (Z.ltb_spec (now + 60 * ACCESS_TOKEN_EXPIRE_MINUTES) now) as [Hlt|_]; [|done].
  unfold ACCESS_TOKEN_EXPIRE_MINUTES in Hlt. lia.
Qed.

(** ** The statements on the sample data *)

(** C1 as first stated fails: a correctly signed, unexpired token whose
    payload names no subject is answered 401 although the scope the
    endpoint requires is not among its granted scopes. *)
Lemma missing_scope_without_subject_is_401 :
  jwt.decode (H := sample_primitives) token_without_subject SECRET_KEY [ALGORITHM] 1000
    = inr (claims_of token_without_subject)
  /\ ("items:write" ∈ ["items:write"])
  /\ ("items:write" ∉ granted_scopes (claims_of token_without_subject))
  /\ get_current_user (H := sample_primitives) ["items:write"] token_without_subject
       sample_users_db 1000 = Raise unauthorized_exception
  /\ response_status unauthorized_exception = HTTP_401_UNAUTHORIZED.
Proof.
  split; [reflexivity|]. split; [apply list_elem_of_here|].
  split; [|split; reflexivity].
  intros Hin. by repeat (apply elem_of_cons in Hin as [?|Hin]; [done|]);
    apply elem_of_nil in Hin.
Qed.

(** [scope_gate_monotonic] on the read-only account's token: an endpoint
    requiring the read scope lets it through, one requiring the write
    scope answers 403. *)
Lemma scope_gate_monotonic_sample :
  (jwt.decode (H := sample_primitives) alice_token SECRET_KEY [ALGORITHM] 1000
     = inr (claims_of alice_token)
   /\ sub (claims_of alice_token) = Some "alice")
  /\ get_current_user (H := sample_primitives) ["items:read"] alice_token
       sample_users_db 1000 = liveness_outcome "alice" sample_users_db
  /\ get_current_user (H := sample_primitives) ["items:write"] alice_token
       sample_users_db 1000 = Raise (forbidden_exception ["items:write"]).
Proof.
  split; [split; reflexivity|]. split.
  - destruct (scope_gate_monotonic (H := sample_primitives) ["items:read"] alice_token
                sample_users_db 1000 (claims_of alice_token) "alice" eq_refl eq_refl)
      as (Hopen & _ & _).
    apply Hopen. intros scope Hin. exact Hin.
  - destruct (scope_gate_monotonic (H := sample_primitives) ["items:write"] alice_token
                sample_users_db 1000 (claims_of alice_token) "alice" eq_refl eq_refl)
      as (_ & _ & Hclosed).
    apply (Hclosed "items:write").
    + apply list_elem_of_here.
    + intros Hin. apply elem_of_cons in Hin as [Heq|Hin]; [discriminate Heq|].
      by apply elem_of_nil in Hin.
Defined.

(** C2 as first stated fails: the deactivated account's valid token,
    presented to an endpoint requiring a scope the token lacks, is
    answered 403, not 401. *)
Lemma inactive_user_missing_scope_is_403 :
  jwt.decode (H := sample_primitives) bob_token SECRET_KEY [ALGORITHM] 1000
    = inr (claims_of bob_token)
  /\ sub (claims_of bob_token) = Some "bob"
  /\ UserInDB.is_active <$> SQLUserRepo.get_by_username "bob" sample_users_db
     = Some false
  /\ get_current_user (H := sample_primitives) ["items:write"] bob_token
       sample_users_db 1000 = Raise (forbidden_exception ["items:write"])
  /\ response_status (forbidden_exception ["items:write"]) = HTTP_403_FORBIDDEN
  /\ response_status (forbidden_exception ["items:write"]) <> HTTP_401_UNAUTHORIZED.
Proof. by repeat split. Qed.

(** [inactive_or_unknown_unauthorized] on the deactivated account's token
    at an endpoint requiring the read scope it holds. *)
Lemma inactive_or_unknown_unauthorized_sample :
  (jwt.decode (H := sample_primitives) bob_token SECRET_KEY [ALGORITHM] 1000
     = inr (claims_of bob_token)
   /\ sub (claims_of bob_token) = Some "bob"
   /\ (["items:read"] ⊆ granted_scopes (claims_of bob_token))
   /\ UserInDB.is_active <$> SQLUserRepo.get_by_username "bob" sample_users_db
      = Some false)
  /\ get_current_user (H := sample_primitives) ["items:read"] bob_token
       sample_users_db 1000 = Raise unauthorized_exception.
Proof.
  split.
  - split; [reflexivity|]. split; [reflexivity|]. split; [|reflexivity].
    intros scope Hin. exact Hin.
  - apply (inactive_or_unknown_unauthorized (H := sample_primitives) ["items:read"]
             bob_token sample_users_db 1000 (claims_of bob_token) "bob"
             eq_refl eq_refl).
    + intros scope Hin. exact Hin.
    + right. eexists. split; reflexivity.
Defined.




(** C6 as first stated fails: for a stored user and a password that
    holds a NUL character the verification raises, and
    [authenticate_user] returns neither the record nor [None]: it raises,
    and the token exchange is answered 500. *)
Lemma authenticate_user_refused_password_raises :
  head (SQLUserRepo.select_by_username "alice" sample_users_db) = Some alice_row
  /\ verify_password (H := sample_primitives) nul_password
       (Users.hashed_password alice_row) = Raise null_password_error
  /\ authenticate_user (H := sample_primitives) sample_users_db "alice" nul_password
     = Raise null_password_error
  /\ authenticate_user (H := sample_primitives) sample_users_db "alice" nul_password
     <> Ok None
  /\ login_for_access_token (H := sample_primitives)
       {| form_username := "alice"; form_password := nul_password; form_scopes := [] |}
       sample_users_db 1000 = Raise null_password_error
  /\ response_status null_password_error = 500.
Proof. by repeat split. Qed.

(** [authenticate_user_spec] on the sample accounts: the right password
    returns the stored record, a wrong one and an unknown name return
    [None], and a password the hasher refuses raises. *)
Lemma authenticate_user_sample :
  authenticate_user (H := sample_primitives) sample_users_db "alice" "alicepw"
    = Ok (Some (SQLUserRepo._to_in_db alice_row))
  /\ authenticate_user (H := sample_primitives) sample_users_db "carol" "alicepw"
     = Ok None
  /\ authenticate_user (H := sample_primitives) sample_users_db "alice" "wrong"
     = Ok None
  /\ authenticate_user (H := sample_primitives) sample_users_db "alice" nul_password
     = Raise null_password_error.
Proof.
  pose proof (authenticate_user_spec (H := sample_primitives) sample_users_db
                "alice" "alicepw") as [Hiff _].
  pose proof (authenticate_user_spec (H := sample_primitives) sample_users_db
                "carol" "alicepw") as (_ & Hunknown & _).
  pose proof (authenticate_user_spec (H := sample_primitives) sample_users_db
                "alice" "wrong") as (_ & _ & Hwrong & _).
  pose proof (authenticate_user_spec (H := sample_primitives) sample_users_db
                "alice" nul_password) as (_ & _ & _ & Hraises).
  split; [|split; [|split]].
  - apply Hiff. exists alice_row. by repeat split.
  - apply Hunknown. intros Hin.
    by repeat (apply elem_of_cons in Hin as [?|Hin]; [done|]); apply elem_of_nil in Hin.
  - by apply (Hwrong alice_row).
  - by apply (Hraises alice_row).
Defined.

(** [login_scopes_unchecked] on the read-only account asking for the write
    scope: the stored scopes do not include it, the issued token carries
    it, and the Authorizer of an endpoint requiring it does not answer
    403. *)
Lemma login_scopes_unchecked_sample :
  (authenticate_user (H := sample_primitives) sample_users_db "alice" "alicepw"
     = Ok (Some (SQLUserRepo._to_in_db alice_row))
   /\ ~ (form_scopes alice_asks_write ⊆ Users.scopes alice_row))
  /\ exists token payload,
       login_for_access_token (H := sample_primitives) alice_asks_write
         sample_users_db 1000 = Ok {| access_token := token; token_type := "bearer" |}
       /\ scopes payload = Some ["items:write"]
       /\ jwt.decode (H := sample_primitives) token SECRET_KEY [ALGORITHM] 1000
          = inr payload
       /\ forall e,
            get_current_user (H := sample_primitives) ["items:write"] token
              sample_users_db 1000 = Raise e ->
            response_status e <> HTTP_403_FORBIDDEN.
Proof.
  split.
  - split; [reflexivity|]. intros Hsub.
    specialize (Hsub "items:write" (list_elem_of_here _ _)).
    apply elem_of_cons in Hsub as [Heq|Hin]; [discriminate Heq|].
    by apply elem_of_nil in Hin.
  - destruct (proj1 (proj2 (login_scopes_unchecked (H := sample_primitives))) alice_asks_write
                sample_users_db 1000 (SQLUserRepo._to_in_db alice_row) eq_refl)
      as (token & payload & Hlogin & Hdecode & _ & Hscopes & Hgate).
    exists token, payload. split; [exact Hlogin|]. split; [exact Hscopes|].
    split; [exact Hdecode|].
    apply (Hgate ["items:write"] 1000); [discriminate| |discriminate].
    intros scope Hin. exact Hin.
Defined.

(** The end-to-end run of the service's documentation: signup, token
    exchange with the right password, the profile read, token exchange
    with a wrong password, and a write endpoint reached with a token
    granted the read scope only. *)
Example end_to_end_sample :
  let repo := (signup (H := sample_primitives) "salt" hari empty_db).2 in
  let login password requested :=
    login_for_access_token (H := sample_primitives)
      {| form_username := "hari"; form_password := password;
         form_scopes := requested |} repo 1000 in
  (signup (H := sample_primitives) "salt" hari empty_db).1
    = Ok {| UserRead.id := 1; UserRead.username := "hari";
            UserRead.full_name := Some "poojary";
            UserRead.email := Some "hari@example.com";
            UserRead.is_active := true;
            UserRead.scopes := ["items:read"; "items:write"] |}
  /\ (exists token,
        access_token <$> login "haridx" [] = Ok token
        /\ UserInDB.username
             <$> get_current_user (H := sample_primitives) [] token repo 1001
           = Ok "hari")
  /\ login "wrong" []
     = Raise (HTTPException 401 "Incorrect username or password." None)
  /\ (exists token,
        access_token <$> login "haridx" ["items:read"] = Ok token
        /\ get_current_user (H := sample_primitives) ["items:write"] token repo 1001
           = Raise (forbidden_exception ["items:write"])).
Proof.
  cbv zeta. split; [reflexivity|]. split; [|split; [reflexivity|]].
  - eexists. split; reflexivity.
  - eexists. split; reflexivity.
Qed.

(** [signup_twice_integrity_error] on the documented signup, sent twice
    to the empty store: the first call creates the user, the second is
    answered 500; and the signup of a free name with a password the
    hasher refuses is answered 400, as if the name were taken. *)
Lemma signup_twice_integrity_error_sample :
  Users.username <$> users (signup (H := sample_primitives) "salt" hari empty_db).2
    = ["hari"]
  /\ signup (H := sample_primitives) "pepr" hari
       (signup (H := sample_primitives) "salt" hari empty_db).2
     = (Raise IntegrityError, (signup (H := sample_primitives) "salt" hari empty_db).2)
  /\ response_status IntegrityError = 500
  /\ ("carol" ∉ (Users.username <$> users empty_db))
  /\ signup (H := sample_primitives) "salt" carol_signup empty_db
     = (Raise (HTTPException HTTP_400_BAD_REQUEST "User already exists." None),
        empty_db).
Proof.
  split; [reflexivity|].
  destruct (signup_twice_integrity_error (H := sample_primitives) "salt" "pepr" hari
              empty_db) as (Htwice & _ & _).
  destruct (Htwice "saltharidx" "peprharidx" eq_refl eq_refl) as (Hsecond & Hstatus & _).
  split; [exact Hsecond|]. split; [exact Hstatus|]. split; [apply not_elem_of_nil|].
  destruct (signup_twice_integrity_error (H := sample_primitives) "salt" "pepr"
              carol_signup empty_db) as (_ & _ & Hrefused).
  by apply (Hrefused "bcrypt does not allow NULL bytes in password").
Defined.

(** [login_failure_has_no_challenge] on the sample accounts: a wrong
    password and an unknown name are answered 401 without a challenge
    header. *)
Lemma login_failure_has_no_challenge_sample :
  login_for_access_token (H := sample_primitives)
    {| form_username := "alice"; form_password := "wrong"; form_scopes := [] |}
    sample_users_db 1000
  = Raise (HTTPException 401 "Incorrect username or password." None)
  /\ login_for_access_token (H := sample_primitives)
       {| form_username := "carol"; form_password := "alicepw"; form_scopes := [] |}
       sample_users_db 1000
     = Raise (HTTPException 401 "Incorrect username or password." None)
  /\ response_header (HTTPException 401 "Incorrect username or password." None)
       "WWW-Authenticate" = None.
Proof.
  split; [|split].
  - by apply (login_failure_has_no_challenge (H := sample_primitives)
                {| form_username := "alice"; form_password := "wrong";
                   form_scopes := [] |} sample_users_db 1000).
  - by apply (login_failure_has_no_challenge (H := sample_primitives)
                {| form_username := "carol"; form_password := "alicepw";
                   form_scopes := [] |} sample_users_db 1000).
  - apply (login_failure_has_no_challenge (H := sample_primitives)
             {| form_username := "alice"; form_password := "wrong";
                form_scopes := [] |} sample_users_db 1000).
Defined.

(** [get_current_user_exposes_hash] with the sample hasher: the record
    handed to the handler of [/auth/me] carries the stored hash. *)
Lemma get_current_user_exposes_hash_sample :
  get_password_hash (H := sample_primitives) "salt" "haridx" = Ok "saltharidx"
  /\ UserInDB.hashed_password
       <$> get_current_user (H := sample_primitives) []
             (create_access_token (H := sample_primitives)
                {| sub := Some "hari"; scopes := Some ["items:read"; "items:write"];
                   exp := None |} ACCESS_TOKEN_EXPIRE_MINUTES 1000)
             (signup (H := sample_primitives) "salt" hari empty_db).2 1000
     = Ok "saltharidx".
Proof.
  split; [reflexivity|].
  destruct (get_current_user_exposes_hash (H := sample_primitives) "salt" "saltharidx"
              1000 eq_refl) as [_ Hreturned].
  by rewrite Hreturned.
Defined.

(** * Properties of the rest of the service *)

(** ** CPU-bound work *)

Lemma cpu_heavy_iter_succ (k : nat) :
  Nat.iter (S k) cpu_heavy_step (0, 1) =
    cpu_heavy_step (Nat.iter k cpu_heavy_step (0, 1)).
Proof. reflexivity. Qed.

(** The loop keeps a pair of consecutive, non-negative, ordered values. *)
Lemma cpu_heavy_iter_ordered (k : nat) :
  0 <= (Nat.iter k cpu_heavy_step (0, 1)).1
       <= (Nat.iter k cpu_heavy_step (0, 1)).2.
Proof.
  induction k as [|k IH]; [cbn; lia|].
  rewrite cpu_heavy_iter_succ. revert IH.
  destruct (Nat.iter k cpu_heavy_step (0, 1)) as [a b].
  unfold cpu_heavy_step. cbn [fst snd]. lia.
Qed.

Lemma cpu_heavy_of_nat (k : nat) :
  cpu_heavy (Z.of_nat k) = (Nat.iter k cpu_heavy_step (0, 1)).1.
Proof. unfold cpu_heavy. by rewrite Nat2Z.id. Qed.

Lemma cpu_heavy_nat_mono (j k : nat) :
  (j <= k)%nat ->
  (Nat.iter j cpu_heavy_step (0, 1)).1 <= (Nat.iter k cpu_heavy_step (0, 1)).1.
Proof.
  induction 1 as [|k Hle IH]; [lia|].
  rewrite cpu_heavy_iter_succ.
  pose proof (cpu_heavy_iter_ordered k) as Hord. revert IH Hord.
  destruct (Nat.iter k cpu_heavy_step (0, 1)) as [a b].
  unfold cpu_heavy_step. cbn [fst snd]. lia.
Qed.

(** X1. [cpu_heavy] computes the Fibonacci numbers: it is 0 at 0 and
    below, 1 at 1, and each later value is the sum of the two before it;
    it never decreases, and on the range the [compute] endpoint admits
    (1 to 40) its value lies between 1 and 102334155. *)
Theorem cpu_heavy_fibonacci :
  (forall n, n <= 0 -> cpu_heavy n = 0)
  /\ cpu_heavy 1 = 1
  /\ (forall n, 0 <= n -> cpu_heavy (n + 2) = cpu_heavy (n + 1) + cpu_heavy n)
  /\ (forall m n, m <= n -> cpu_heavy m <= cpu_heavy n)
  /\ (forall n, 1 <= n <= 40 -> 1 <= cpu_heavy n <= 102334155).
Proof.
  assert (Hmono : forall m n, m <= n -> cpu_heavy m <= cpu_heavy n).
  { intros m n Hle. unfold cpu_heavy. apply cpu_heavy_nat_mono. lia. }
  split; [|split; [|split; [|split]]].
  - intros n Hn. unfold cpu_heavy. by replace (Z.to_nat n) with 0%nat by lia.
  - reflexivity.
  - intros n Hn. unfold cpu_heavy.
    replace (Z.to_nat (n + 2)) with (S (S (Z.to_nat n))) by lia.
    replace (Z.to_nat (n + 1)) with (S (Z.to_nat n)) by lia.
    rewrite !cpu_heavy_iter_succ.
    destruct (Nat.iter (Z.to_nat n) cpu_heavy_step (0, 1)) as [a b].
    unfold cpu_heavy_step. cbn [fst snd]. lia.
  - exact Hmono.
  - intros n [Hlow Hhigh]. split.
    + change 1 with (cpu_heavy 1) at 1. by apply Hmono.
    + change 102334155 with (cpu_heavy 40). by apply Hmono.
Qed.

(** ** Streaming exports *)

Lemma string_append_assoc (s1 s2 s3 : string) :
  (s1 ++ s2) ++ s3 = s1 ++ (s2 ++ s3).
Proof.
  induction s1 as [|c s1 IH]; [reflexivity|].
  change (String c ((s1 ++ s2) ++ s3) = String c (s1 ++ (s2 ++ s3))).
  by rewrite IH.
Qed.

(** X2. [generate_csv(rows)] yields the header and then one line per
    number from 1 to [rows], in order: [rows + 1] chunks in all, the
    chunk at position [i] being the line of [i]; for [rows <= 0] it
    yields the header alone. *)
Theorem generate_csv_chunks (rows : Z) :
  length (generate_csv rows) = S (Z.to_nat rows)
  /\ generate_csv rows !! 0%nat = Some csv_header
  /\ (forall i, 1 <= i <= rows -> generate_csv rows !! Z.to_nat i = Some (csv_line i))
  /\ (rows <= 0 -> generate_csv rows = [csv_header]).
Proof.
  unfold generate_csv. split; [|split; [|split]].
  - cbn [length]. by rewrite length_fmap, length_seqZ.
  - reflexivity.
  - intros i [Hlow Hhigh].
    rewrite lookup_cons_ne_0 by lia. rewrite list_lookup_fmap.
    assert (Hi : seqZ 1 rows !! pred (Z.to_nat i) = Some i)
      by (apply lookup_seqZ; lia).
    by rewrite Hi.
  - intros Hempty. by rewrite seqZ_nil by lia.
Qed.

(** X3. [generate_json(rows)] yields an opening bracket, one object per
    number from 1 to [rows] and a closing bracket, [rows + 2] chunks in
    all; every object but the last is followed by a comma, the last one
    is not, so the chunks never end the array on a comma; for
    [rows <= 0] the two brackets are all it yields. *)
Theorem generate_json_chunks (rows : Z) :
  length (generate_json rows) = S (S (Z.to_nat rows))
  /\ generate_json rows !! 0%nat = Some ("[" ++ newline)
  /\ generate_json rows !! S (Z.to_nat rows) = Some ("]" ++ newline)
  /\ (forall i, 1 <= i < rows ->
        generate_json rows !! Z.to_nat i = Some (json_item i ++ "," ++ newline))
  /\ (1 <= rows ->
        generate_json rows !! Z.to_nat rows = Some (json_item rows ++ newline))
  /\ (rows <= 0 -> generate_json rows = ["[" ++ newline; "]" ++ newline]).
Proof.
  assert (Hlen : forall f : Z -> string, length (f <$> seqZ 1 rows) = Z.to_nat rows)
    by (intros f; by rewrite length_fmap, length_seqZ).
  assert (Hat : forall i, 1 <= i <= rows ->
            generate_json rows !! Z.to_nat i
            = Some ((if Z.ltb i rows then json_item i ++ "," else json_item i)
                    ++ newline)).
  { intros i [Hlow Hhigh]. unfold generate_json.
    rewrite <- app_comm_cons, lookup_cons_ne_0 by lia.
    rewrite lookup_app_l by (rewrite Hlen; lia).
    rewrite list_lookup_fmap.
    assert (Hi : seqZ 1 rows !! pred (Z.to_nat i) = Some i)
      by (apply lookup_seqZ; lia).
    by rewrite Hi. }
  split; [|split; [|split; [|split; [|split]]]].
  - unfold generate_json. rewrite <- app_comm_cons. cbn [length].
    rewrite length_app, Hlen. cbn [length]. lia.
  - reflexivity.
  - unfold generate_json. rewrite <- app_comm_cons, lookup_cons_ne_0 by lia.
    cbn [pred]. rewrite lookup_app_r by (rewrite Hlen; lia).
    by rewrite Hlen, Nat.sub_diag.
  - intros i [Hlow Hhigh]. rewrite Hat by lia.
    destruct (Z.ltb_spec i rows) as [_|?]; [|lia].
    by rewrite string_append_assoc.
  - intros Hrows. rewrite Hat by lia.
    by destruct (Z.ltb_spec rows rows) as [?|_]; [lia|].
  - intros Hempty. unfold generate_json. by rewrite seqZ_nil by lia.
Qed.

(** ** Pagination *)

(** X4. With a page of at least 1, a requested size absent or between 1
    and 100 (the bounds of the query parameters) and a positive
    [max_page_size], [get_pagination] returns the page unchanged and, as
    size, the smaller of the requested size (10 when absent) and
    [max_page_size]; that size lies between 1 and 100. *)
Theorem get_pagination_bounds (settings : Settings) (requested_page : Z)
    (requested_size : option Z) :
  1 <= requested_page ->
  (forall size, requested_size = Some size -> 1 <= size <= 100) ->
  1 <= max_page_size settings ->
  exists pagination,
    get_pagination settings requested_page requested_size = Ok pagination
    /\ page pagination = requested_page
    /\ page_size pagination
       = Z.min (default 10 requested_size) (max_page_size settings)
    /\ 1 <= page_size pagination <= 100
    /\ page_size pagination <= max_page_size settings.
Proof.
  intros Hpage Hsize Hmax. unfold get_pagination, new_Pagination.
  set (chosen := Z.min _ (max_page_size settings)).
  assert (Hchosen : chosen = Z.min (default 10 requested_size) (max_page_size settings))
    by (subst chosen; by destruct requested_size).
  assert (Hbounds : 1 <= chosen <= 100 /\ chosen <= max_page_size settings).
  { rewrite Hchosen. destruct requested_size as [size|]; simpl.
    - specialize (Hsize size eq_refl). lia.
    - lia. }
  destruct Hbounds as [[Hlow Hhigh] Hle].
  rewrite (proj2 (Z.leb_le 1 requested_page) Hpage).
  rewrite (proj2 (Z.leb_le 1 chosen) Hlow), (proj2 (Z.leb_le chosen 100) Hhigh).
  cbn [andb]. eexists. split; [reflexivity|]. cbn [page page_size]. by repeat split.
Qed.

(** ** Listing items *)

Lemma mapM_result_Forall2 {A B : Type} (f : A -> result B) (l : list A) (l' : list B) :
  mapM f l = Ok l' <-> Forall2 (fun x y => f x = Ok y) l l'.
Proof.
  revert l'. induction l as [|x l IH]; intros l'.
  - cbn. split.
    + intros [= <-]. constructor.
    + intros Hall. apply Forall2_nil_inv_l in Hall. by subst l'.
  - cbn. split.
    + destruct (f x) as [y|e] eqn:Hfx; [|done]. cbn.
      destruct (mapM f l) as [k|e] eqn:Hrest; [|done]. cbn.
      intros [= <-]. constructor; [done|]. by apply IH.
    + intros Hall. apply Forall2_cons_inv_l in Hall as (y & k & Hfx & Hrest & ->).
      rewrite Hfx. cbn. apply IH in Hrest. by rewrite Hrest.
Qed.

Lemma StronglySorted_sublist {A : Type} (R : relation A) (l1 l2 : list A) :
  l1 `sublist_of` l2 -> StronglySorted R l2 -> StronglySorted R l1.
Proof.
  induction 1 as [|x l1 l2 Hsub IH|x l1 l2 Hsub IH]; intros Hsorted.
  - constructor.
  - apply StronglySorted_inv in Hsorted as [Hrest Hall].
    constructor; [by apply IH|].
    apply Forall_forall. intros y Hy. apply (proj1 (Forall_forall _ _) Hall).
    by apply elem_of_sublist with l1.
  - apply StronglySorted_inv in Hsorted as [Hrest _]. by apply IH.
Qed.

Section PySlice.
Context {A : Type}.
Implicit Types l : list A.

Lemma py_slice_sublist l (start stop : Z) : py_slice l start stop `sublist_of` l.
Proof.
  unfold py_slice. etrans; [apply sublist_take|apply sublist_drop].
Qed.

(** From a start at or past the end nothing is left. *)
Lemma py_slice_past_end l (start stop : Z) :
  Z.of_nat (length l) <= start -> py_slice l start stop = [].
Proof.
  intros Hpast. unfold py_slice.
  destruct (Z.ltb_spec start 0) as [?|_]; [lia|].
  rewrite drop_ge; [by rewrite take_nil|]. lia.
Qed.

(** A slice that starts at 0 and stops at or past the end is the list. *)
Lemma py_slice_all l (stop : Z) :
  Z.of_nat (length l) <= stop -> py_slice l 0 stop = l.
Proof.
  intros Hpast. unfold py_slice.
  destruct (Z.ltb_spec 0 0) as [?|_]; [lia|].
  destruct (Z.ltb_spec stop 0) as [?|_]; [lia|].
  rewrite (Z.min_l 0), (Z.min_r stop) by lia.
  change (Z.to_nat 0) with 0%nat. rewrite drop_0.
  apply take_ge. lia.
Qed.

Lemma py_slice_length l (start stop : Z) :
  0 <= start <= stop -> Z.of_nat (length (py_slice l start stop)) <= stop - start.
Proof.
  intros [Hstart Hstop]. unfold py_slice.
  destruct (Z.ltb_spec start 0) as [?|_]; [lia|].
  destruct (Z.ltb_spec stop 0) as [?|_]; [lia|].
  rewrite length_take. lia.
Qed.
End PySlice.

Section Listing.
Context `{TextOps}.

Lemma SQLItemRepo_list_selected (q : option string) (limit : Z) (db : Database) :
  SQLItemRepo_list q limit db =
    mapM (fun r => SQLItemRepo._to_read (Items.load r)) (selected_rows q limit db).
Proof. reflexivity. Qed.

Lemma selected_rows_sorted (q : option string) (limit : Z) (db : Database) :
  StronglySorted by_id (selected_rows q limit db).
Proof.
  assert (Hsorted : StronglySorted by_id (merge_sort by_id ((map_to_list (items db)).*2))).
  { apply StronglySorted_merge_sort.
    - intros r1 r2 r3. unfold by_id. lia.
    - intros r1 r2. unfold by_id. lia. }
  unfold selected_rows.
  set (rows := merge_sort by_id _) in *.
  set (kept := match q with Some (String c rest) => _ | _ => rows end).
  assert (Hkept : kept `sublist_of` rows).
  { subst kept. destruct q as [[|c rest]|]; [done|apply sublist_filter|done]. }
  apply StronglySorted_sublist with rows; [|done].
  destruct (Z.ltb limit 0); [done|]. etrans; [apply sublist_take|done].
Qed.

Lemma selected_rows_stored (q : option string) (limit : Z) (db : Database)
    (r : Items.row) :
  r ∈ selected_rows q limit db -> exists k, items db !! k = Some r.
Proof.
  intros Hin.
  assert (Hsorted : r ∈ merge_sort by_id ((map_to_list (items db)).*2)).
  { unfold selected_rows in Hin.
    set (rows := merge_sort by_id _) in *.
    set (kept := match q with Some (String c rest) => _ | _ => rows end) in *.
    assert (Hkept : kept `sublist_of` rows).
    { subst kept. destruct q as [[|c rest]|]; [done|apply sublist_filter|done]. }
    apply elem_of_sublist with kept; [|done].
    destruct (Z.ltb limit 0); [done|].
    eapply elem_of_sublist; [exact Hin|apply sublist_take]. }
  rewrite merge_sort_Permutation in Hsorted.
  apply list_elem_of_fmap in Hsorted as ([k r'] & -> & Hin').
  exists k. by apply elem_of_map_to_list.
Qed.

Lemma selected_rows_unfiltered_length (limit : Z) (db : Database) :
  length (selected_rows None limit db) =
    if Z.ltb limit 0 then size (items db)
    else Nat.min (Z.to_nat limit) (size (items db)).
Proof.
  assert (Hall : length (merge_sort by_id ((map_to_list (items db)).*2))
                 = size (items db)).
  { rewrite merge_sort_Permutation, length_fmap. apply length_map_to_list. }
  unfold selected_rows. destruct (Z.ltb limit 0); [done|].
  by rewrite length_take, Hall.
Qed.

Lemma to_read_load_id (r : Items.row) (item : ItemRead.t) :
  SQLItemRepo._to_read (Items.load r) = Ok item ->
  ItemRead.id item = Items.row_id r /\ ItemRead.name item = Items.row_name r.
Proof.
  destruct r as [i n d p [tg|] s c]; cbn; [|done]. by intros [= <-].
Qed.

(** X5. When [SQLItemRepo.list] returns, the items come in ascending id,
    each is the reading of a stored row, their number does not exceed a
    non-negative limit, every name matches the pattern built from a
    non-empty [q], and without [q] the number is the smaller of the limit
    and the number of stored rows (all rows under a negative limit). *)
Theorem SQLItemRepo_list_spec (q : option string) (limit : Z) (db : Database)
    (listed : list ItemRead.t) :
  SQLItemRepo_list q limit db = Ok listed ->
  StronglySorted Z.le (ItemRead.id <$> listed)
  /\ (forall item, item ∈ listed ->
        exists k r, items db !! k = Some r
                    /\ SQLItemRepo._to_read (Items.load r) = Ok item)
  /\ (0 <= limit -> (length listed <= Z.to_nat limit)%nat)
  /\ (forall c rest item, q = Some (String c rest) -> item ∈ listed ->
        ilike (ItemRead.name item) ("%" ++ String c rest ++ "%") = true)
  /\ (q = None ->
        length listed = if Z.ltb limit 0 then size (items db)
                        else Nat.min (Z.to_nat limit) (size (items db))).
Proof.
  rewrite SQLItemRepo_list_selected, mapM_result_Forall2. intros Hread.
  assert (Hids : ItemRead.id <$> listed = Items.row_id <$> selected_rows q limit db).
  { induction Hread as [|r item rows rest Hitem _ IH]; [done|].
    cbn. apply to_read_load_id in Hitem as [-> _]. by rewrite IH. }
  split; [|split; [|split; [|split]]].
  - rewrite Hids. apply StronglySorted_fmap with by_id; [|apply selected_rows_sorted].
    by intros r1 r2.
  - intros item Hin.
    apply list_elem_of_lookup in Hin as [i Hi].
    destruct (Forall2_lookup_r _ _ _ i item Hread Hi) as (r & Hr & Hitem).
    apply list_elem_of_lookup_2 in Hr.
    apply selected_rows_stored in Hr as [k Hk]. by exists k, r.
  - intros Hlimit. rewrite <- (Forall2_length _ _ _ Hread).
    unfold selected_rows. destruct (Z.ltb_spec limit 0) as [?|_]; [lia|].
    rewrite length_take. lia.
  - intros c rest item -> Hin.
    apply list_elem_of_lookup in Hin as [i Hi].
    destruct (Forall2_lookup_r _ _ _ i item Hread Hi) as (r & Hr & Hitem).
    apply list_elem_of_lookup_2 in Hr.
    apply to_read_load_id in Hitem as [_ ->].
    unfold selected_rows in Hr.
    assert (Hfiltered :
      r ∈ filter (fun r => ilike (Items.row_name r) ("%" ++ String c rest ++ "%") = true)
            (merge_sort by_id ((map_to_list (items db)).*2))).
    { destruct (Z.ltb limit 0); [done|].
      eapply elem_of_sublist; [exact Hr|apply sublist_take]. }
    by apply list_elem_of_filter in Hfiltered as [? _].
  - intros ->. rewrite <- (Forall2_length _ _ _ Hread).
    apply selected_rows_unfiltered_length.
Qed.

(** The ids of a returned listing are the ids of the selected rows. *)
Lemma SQLItemRepo_list_ids (q : option string) (limit : Z) (db : Database)
    (listed : list ItemRead.t) :
  SQLItemRepo_list q limit db = Ok listed ->
  ItemRead.id <$> listed = Items.row_id <$> selected_rows q limit db.
Proof.
  rewrite SQLItemRepo_list_selected, mapM_result_Forall2. intros Hread.
  induction Hread as [|r item rows rest Hitem _ IH]; [done|].
  cbn. apply to_read_load_id in Hitem as [-> _]. by rewrite IH.
Qed.

Lemma SQLItemRepo_list_unfiltered_length (limit : Z) (db : Database)
    (listed : list ItemRead.t) :
  SQLItemRepo_list None limit db = Ok listed ->
  length listed = if Z.ltb limit 0 then size (items db)
                  else Nat.min (Z.to_nat limit) (size (items db)).
Proof.
  rewrite SQLItemRepo_list_selected, mapM_result_Forall2. intros Hread.
  rewrite <- (Forall2_length _ _ _ Hread). apply selected_rows_unfiltered_length.
Qed.

(** A stored row that passes the filter and whose id is not among the
    selected ones was cut off by the limit: the selection is full, and
    every selected id is lower. *)
Lemma selected_rows_lowest (q : option string) (limit : Z) (db : Database)
    (k : Z) (r : Items.row) :
  items db !! k = Some r ->
  (forall c rest, q = Some (String c rest) ->
     ilike (Items.row_name r) ("%" ++ String c rest ++ "%") = true) ->
  Items.row_id r ∉ (Items.row_id <$> selected_rows q limit db) ->
  (0 <= limit /\ length (selected_rows q limit db) = Z.to_nat limit)
  /\ forall r', r' ∈ selected_rows q limit db -> Items.row_id r' < Items.row_id r.
Proof.
  intros Hrow Hmatch Hout. unfold selected_rows in *.
  set (rows := merge_sort by_id ((map_to_list (items db)).*2)) in *.
  set (kept := match q with Some (String c rest) => _ | _ => rows end) in *.
  assert (Hsorted : StronglySorted by_id kept).
  { apply StronglySorted_sublist with rows.
    - subst kept. destruct q as [[|c rest]|]; [done|apply sublist_filter|done].
    - apply StronglySorted_merge_sort.
      + intros r1 r2 r3. unfold by_id. lia.
      + intros r1 r2. unfold by_id. lia. }
  assert (Hstored : r ∈ rows).
  { subst rows. rewrite merge_sort_Permutation. apply list_elem_of_fmap.
    exists (k, r). split; [done|]. by apply elem_of_map_to_list. }
  assert (Hkept : r ∈ kept).
  { subst kept. destruct q as [[|c rest]|]; [done| |done].
    apply list_elem_of_filter. split; [|done]. by apply (Hmatch c rest). }
  destruct (Z.ltb_spec limit 0) as [Hneg|Hlimit].
  { exfalso. apply Hout, list_elem_of_fmap. by exists r. }
  rewrite <- (take_drop (Z.to_nat limit) kept) in Hkept, Hsorted.
  apply elem_of_app in Hkept as [Htaken|Hdropped].
  { exfalso. apply Hout, list_elem_of_fmap. by exists r. }
  split.
  - split; [done|]. rewrite length_take. apply Nat.min_l.
    destruct (decide (Z.to_nat limit <= length kept)%nat) as [?|Hshort]; [done|].
    rewrite drop_ge in Hdropped by lia. by apply elem_of_nil in Hdropped.
  - intros r' Hr'.
    pose proof (StronglySorted_app_1_elem_of _ _ _ _ _ Hsorted Hr' Hdropped) as Hle.
    unfold by_id in Hle.
    assert (Hne : Items.row_id r' <> Items.row_id r).
    { intros Heq. apply Hout, list_elem_of_fmap. by exists r'. }
    lia.
Qed.

Lemma SQLItemRepo_list_lowest (q : option string) (limit : Z) (db : Database)
    (listed : list ItemRead.t) (k : Z) (r : Items.row) :
  SQLItemRepo_list q limit db = Ok listed ->
  items db !! k = Some r ->
  (forall c rest, q = Some (String c rest) ->
     ilike (Items.row_name r) ("%" ++ String c rest ++ "%") = true) ->
  Items.row_id r ∉ (ItemRead.id <$> listed) ->
  (0 <= limit /\ length listed = Z.to_nat limit)
  /\ forall item, item ∈ listed -> ItemRead.id item < Items.row_id r.
Proof.
  intros Hlist Hrow Hmatch Hout.
  pose proof (SQLItemRepo_list_ids _ _ _ _ Hlist) as Hids.
  rewrite Hids in Hout.
  destruct (selected_rows_lowest q limit db k r Hrow Hmatch Hout) as [[Hlimit Hfull] Hlow].
  split.
  - split; [done|]. apply (f_equal length) in Hids.
    rewrite !length_fmap in Hids. by rewrite Hids.
  - intros item Hin.
    assert (Hid : ItemRead.id item ∈ Items.row_id <$> selected_rows q limit db).
    { rewrite <- Hids. apply list_elem_of_fmap. by exists item. }
    apply list_elem_of_fmap in Hid as (r' & -> & Hr'). by apply Hlow.
Qed.

(** X20. [SQLItemRepo.list] returns the matching rows of lowest id and
    leaves none out while there is room: whenever it returns, a stored
    row that passes the filter (every row, without [q]) and whose id is
    not among the returned ones has an id above every returned id, and
    the listing then holds exactly [limit] items; so a listing shorter
    than a non-negative [limit], or one under a negative [limit], shows
    the id of every matching row. *)
Theorem SQLItemRepo_list_lowest_ids (q : option string) (limit : Z) (db : Database)
    (listed : list ItemRead.t) :
  SQLItemRepo_list q limit db = Ok listed ->
  (forall k r,
     items db !! k = Some r ->
     (forall c rest, q = Some (String c rest) ->
        ilike (Items.row_name r) ("%" ++ String c rest ++ "%") = true) ->
     Items.row_id r ∉ (ItemRead.id <$> listed) ->
     0 <= limit
     /\ length listed = Z.to_nat limit
     /\ forall item, item ∈ listed -> ItemRead.id item < Items.row_id r)
  /\ ((limit < 0 \/ (length listed < Z.to_nat limit)%nat) ->
      forall k r,
        items db !! k = Some r ->
        (forall c rest, q = Some (String c rest) ->
           ilike (Items.row_name r) ("%" ++ String c rest ++ "%") = true) ->
        Items.row_id r ∈ (ItemRead.id <$> listed)).
Proof.
  intros Hlist. split.
  - intros k r Hrow Hmatch Hout.
    destruct (SQLItemRepo_list_lowest q limit db listed k r Hlist Hrow Hmatch Hout)
      as [[Hlimit Hfull] Hlow].
    by repeat split.
  - intros Hroom k r Hrow Hmatch.
    destruct (decide (Items.row_id r ∈ (ItemRead.id <$> listed))) as [Hin|Hout]; [done|].
    destruct (SQLItemRepo_list_lowest q limit db listed k r Hlist Hrow Hmatch Hout)
      as [[Hlimit Hfull] _].
    lia.
Qed.
End Listing.

Section ListingHandlers.
Context `{TextOps}.

Lemma SQLItemRepo_list_length (q : option string) (limit : Z) (db : Database)
    (listed : list ItemRead.t) :
  SQLItemRepo_list q limit db = Ok listed -> 0 <= limit ->
  Z.of_nat (length listed) <= limit.
Proof.
  rewrite SQLItemRepo_list_selected, mapM_result_Forall2. intros Hread Hlimit.
  rewrite <- (Forall2_length _ _ _ Hread). unfold selected_rows.
  destruct (Z.ltb_spec limit 0) as [?|_]; [lia|]. rewrite length_take. lia.
Qed.

Lemma name_filter_sublist (q : option string) (listed : list ItemRead.t) :
  name_filter q listed `sublist_of` listed.
Proof.
  unfold name_filter. destruct q as [[|c rest]|]; [done|apply sublist_filter|done].
Qed.

(** X6. [list_items_paged] of v2 asks the repository for [page_size]
    rows only and then slices from [(page - 1) * page_size]: whenever it
    returns, page 1 is the whole of what the repository listed, every
    page from 2 on is empty, whatever the store holds, and the count
    handed to the background log is [page_size], not the number of items
    returned. *)
Theorem v2_list_items_paged_first_page_only (pagination : Pagination)
    (repo : Database) (returned : list ItemRead.t) (logged : Z) :
  v2_list_items_paged pagination repo = Ok (returned, logged) ->
  1 <= page_size pagination ->
  logged = page_size pagination
  /\ (page pagination = 1 ->
        SQLItemRepo_list None (page_size pagination) repo = Ok returned)
  /\ (2 <= page pagination -> returned = []).
Proof.
  unfold v2_list_items_paged. intros Hrun Hsize.
  destruct (SQLItemRepo_list None (page_size pagination) repo) as [listed|e] eqn:Hlist;
    [|done].
  cbn in Hrun. injection Hrun as <- <-.
  pose proof (SQLItemRepo_list_length _ _ _ _ Hlist ltac:(lia)) as Hlen.
  split; [lia|]. split.
  - intros ->. f_equal. rewrite Z.sub_diag, Z.mul_0_l, Z.add_0_l.
    symmetry. by apply py_slice_all.
  - intros Hpage. apply py_slice_past_end. nia.
Qed.

(** X7. [list_items] of v1 reads the repository's first 25 rows before
    it filters and cuts: whenever it returns, the result is drawn, in
    order, from what the repository lists under limit 25, which are the
    stored rows of lowest id (a stored row whose id is not listed has an
    id above every listed one, and 25 are listed then); so the result
    has at most 25 entries even under a limit of 100 and never shows a
    matching item beyond those 25; it has at most [limit] entries; and
    with a non-empty [q] every entry's lowered name contains the lowered
    [q]. *)
Theorem list_items_reads_25 (repo : Database) (q : option string) (limit : Z)
    (returned : list ItemRead.t) :
  v1_list_items repo q limit = Ok returned ->
  (exists first_rows,
     SQLItemRepo_list None 25 repo = Ok first_rows
     /\ returned `sublist_of` first_rows
     /\ (q = None -> Z.of_nat (length first_rows) <= limit ->
         returned = first_rows)
     /\ length first_rows = Nat.min 25 (size (items repo))
     /\ forall k r,
          items repo !! k = Some r ->
          Items.row_id r ∉ (ItemRead.id <$> first_rows) ->
          length first_rows = 25%nat
          /\ (forall item, item ∈ first_rows -> ItemRead.id item < Items.row_id r)
          /\ (forall item, item ∈ returned -> ItemRead.id item < Items.row_id r))
  /\ (length returned <= 25)%nat
  /\ (0 <= limit -> Z.of_nat (length returned) <= limit)
  /\ (forall c rest item, q = Some (String c rest) -> item ∈ returned ->
        str_contains (str_lower (String c rest)) (str_lower (ItemRead.name item))
        = true).
Proof.
  unfold v1_list_items. intros Hrun.
  destruct (SQLItemRepo_list None 25 repo) as [listed|e] eqn:Hlist; [|done].
  cbn in Hrun. injection Hrun as <-.
  pose proof (SQLItemRepo_list_length _ _ _ _ Hlist ltac:(lia)) as Hlen.
  assert (Hsub : py_slice (name_filter q listed) 0 limit `sublist_of` listed).
  { etrans; [apply py_slice_sublist|apply name_filter_sublist]. }
  split; [|split; [|split]].
  - exists listed. split; [done|]. split; [done|]. split.
    { intros -> Hall. by apply py_slice_all. }
    split.
    { apply (SQLItemRepo_list_unfiltered_length 25 repo listed Hlist). }
    intros k r Hrow Hout.
    destruct (SQLItemRepo_list_lowest None 25 repo listed k r Hlist Hrow) as [[_ ->] Hlow];
      [done|done|].
    split; [done|]. split; [done|].
    intros item Hin. apply Hlow. eapply elem_of_sublist; [exact Hin|exact Hsub].
  - apply sublist_length in Hsub. lia.
  - intros Hlimit. pose proof (py_slice_length (name_filter q listed) 0 limit) as Hcut.
    lia.
  - intros c rest item -> Hin.
    apply elem_of_sublist with (l2 := name_filter (Some (String c rest)) listed) in Hin;
      [|apply py_slice_sublist].
    unfold name_filter in Hin. by apply list_elem_of_filter in Hin as [? _].
Qed.

(** X8. [list_items_paged] of v1 reads the repository's first 25 rows
    and slices them: whenever it returns, the page is drawn, in order,
    from what the repository lists under limit 25, which are the stored
    rows of lowest id (a stored row whose id is not listed has an id
    above every listed one, and 25 are listed then); the page has at
    most [page_size] entries, and a page that starts at offset 25 or
    beyond is empty whatever the store holds. *)
Theorem v1_list_items_paged_window (pagination : Pagination) (repo : Database)
    (returned : list ItemRead.t) :
  v1_list_items_paged pagination repo = Ok returned ->
  1 <= page pagination -> 1 <= page_size pagination ->
  (exists first_rows,
     SQLItemRepo_list None 25 repo = Ok first_rows
     /\ returned `sublist_of` first_rows
     /\ length first_rows = Nat.min 25 (size (items repo))
     /\ forall k r,
          items repo !! k = Some r ->
          Items.row_id r ∉ (ItemRead.id <$> first_rows) ->
          length first_rows = 25%nat
          /\ (forall item, item ∈ first_rows -> ItemRead.id item < Items.row_id r)
          /\ (forall item, item ∈ returned -> ItemRead.id item < Items.row_id r))
  /\ Z.of_nat (length returned) <= page_size pagination
  /\ (25 <= (page pagination - 1) * page_size pagination -> returned = []).
Proof.
  unfold v1_list_items_paged. intros Hrun Hpage Hsize.
  destruct (SQLItemRepo_list None 25 repo) as [listed|e] eqn:Hlist; [|done].
  cbn in Hrun. injection Hrun as <-.
  pose proof (SQLItemRepo_list_length _ _ _ _ Hlist ltac:(lia)) as Hlen.
  split; [|split].
  - exists listed. split; [done|]. split; [apply py_slice_sublist|]. split.
    { apply (SQLItemRepo_list_unfiltered_length 25 repo listed Hlist). }
    intros k r Hrow Hout.
    destruct (SQLItemRepo_list_lowest None 25 repo listed k r Hlist Hrow) as [[_ ->] Hlow];
      [done|done|].
    split; [done|]. split; [done|].
    intros item Hin. apply Hlow.
    eapply elem_of_sublist; [exact Hin|apply py_slice_sublist].
  - pose proof (py_slice_length listed ((page pagination - 1) * page_size pagination)
                  ((page pagination - 1) * page_size pagination + page_size pagination))
      as Hcut.
    nia.
  - intros Hbeyond. apply py_slice_past_end. lia.
Qed.
End ListingHandlers.

(** ** Rate-limit identity *)

Lemma substring_all (s : string) : String.substring 0 (String.length s) s = s.
Proof.
  induction s as [|c s IH]; [reflexivity|].
  change (String c (String.substring 0 (String.length s) s) = String c s).
  by rewrite IH.
Qed.

Lemma bearer_prefix (text : string) :
  String.prefix "Bearer " ("Bearer " ++ text) = true
  /\ String.substring 7 (String.length ("Bearer " ++ text) - 7) ("Bearer " ++ text)
     = text.
Proof.
  split; [by destruct text|].
  transitivity (String.substring 0 (String.length text) text);
    [|apply substring_all].
  by destruct text.
Qed.

Section RateLimit.
Context `{Primitives} `{TokenWire}.
Variables (request : Request) (now : Z).

Lemma user_identifier_decoded (text : string) (payload : Claims) :
  request_headers request !! "Authorization" = Some ("Bearer " ++ text) ->
  jwt.decode (parse_token text) SECRET_KEY [ALGORITHM] now = inr payload ->
  _user_identifier request now =
    "user:"
    ++ match sub payload with
       | Some (String c rest) => String c rest
       | _ => "anonymous"
       end
    ++ ":" ++ request_url_path request.
Proof.
  intros Hheader Hdecode. unfold _user_identifier. rewrite Hheader. cbv zeta.
  change (default "" (Some ("Bearer " ++ text))) with ("Bearer " ++ text).
  destruct (bearer_prefix text) as [-> ->]. by rewrite Hdecode.
Qed.

(** X9. [_user_identifier] names the caller from the token alone. For a
    request whose [Authorization] header is [Bearer] and a token: when
    the token decodes, the identity is [user:], the subject
    ([anonymous] for a missing or empty one) and the path, whether or not
    the store knows the subject, the account is active or any scope is
    granted; in particular, whenever [get_current_user] accepts the same
    token for a user of non-empty name, the identity carries that name.
    When the token does not decode, or the header is missing or does not
    start with [Bearer] and a space, the identity is [ip:], the client
    address ([unknown] without one) and the path. *)
Theorem user_identifier_spec :
  let by_ip :=
    "ip:" ++ default "unknown" (request_client_host request)
    ++ ":" ++ request_url_path request in
  (forall text payload,
     request_headers request !! "Authorization" = Some ("Bearer " ++ text) ->
     jwt.decode (parse_token text) SECRET_KEY [ALGORITHM] now = inr payload ->
     _user_identifier request now =
       "user:"
       ++ match sub payload with
          | Some (String c rest) => String c rest
          | _ => "anonymous"
          end
       ++ ":" ++ request_url_path request)
  /\ (forall text security_scopes repo user,
        request_headers request !! "Authorization" = Some ("Bearer " ++ text) ->
        get_current_user security_scopes (parse_token text) repo now = Ok user ->
        UserInDB.username user <> "" ->
        _user_identifier request now =
          "user:" ++ UserInDB.username user ++ ":" ++ request_url_path request)
  /\ (forall text err,
        request_headers request !! "Authorization" = Some ("Bearer " ++ text) ->
        jwt.decode (parse_token text) SECRET_KEY [ALGORITHM] now = inl err ->
        _user_identifier request now = by_ip)
  /\ (forall auth,
        request_headers request !! "Authorization" = auth ->
        String.prefix "Bearer " (default "" auth) = false ->
        _user_identifier request now = by_ip).
Proof.
  intros by_ip. subst by_ip. split; [|split; [|split]].
  - apply user_identifier_decoded.
  - intros text security_scopes repo user Hheader Hok Hname.
    unfold get_current_user in Hok.
    destruct (jwt.decode (parse_token text) SECRET_KEY [ALGORITHM] now)
      as [err|payload] eqn:Hdecode; [done|].
    destruct (sub payload) as [username|] eqn:Hsub; [|done].
    destruct (negb _ && negb _); [done|].
    unfold SQLUserRepo.get_by_username in Hok.
    destruct (head (SQLUserRepo.select_by_username username repo)) as [obj|] eqn:Hhead;
      [|done].
    destruct (negb _); [done|]. injection Hok as <-.
    apply head_select_by_username in Hhead as [_ Hobj].
    cbn in Hname |- *. rewrite Hobj in Hname |- *.
    rewrite (user_identifier_decoded text payload Hheader Hdecode), Hsub.
    by destruct username.
  - intros text err Hheader Hdecode. unfold _user_identifier.
    rewrite Hheader. cbv zeta.
    change (default "" (Some ("Bearer " ++ text))) with ("Bearer " ++ text).
    destruct (bearer_prefix text) as [-> ->]. by rewrite Hdecode.
  - intros auth Hheader Hprefix. unfold _user_identifier.
    rewrite Hheader. cbv zeta. by rewrite Hprefix.
Qed.
End RateLimit.

(** ** The in-memory repositories *)

Section DictFacts.
Context {K V : Type} `{EqDecision K}.
Implicit Types (d : list (K * V)) (k : K) (v : V).

Lemma dict_get_set_eq d k v : dict_get (dict_set d k v) k = Some v.
Proof.
  induction d as [|[k' v'] d IH]; cbn.
  - by rewrite decide_True.
  - destruct (decide (k = k')) as [->|Hne]; cbn.
    + by rewrite decide_True.
    + by rewrite decide_False.
Qed.

Lemma dict_get_set_ne d k k' v :
  k <> k' -> dict_get (dict_set d k v) k' = dict_get d k'.
Proof.
  intros Hne. induction d as [|[k0 v0] d IH]; cbn.
  - by rewrite decide_False.
  - destruct (decide (k = k0)) as [->|Hne0]; cbn.
    + by rewrite !decide_False.
    + destruct (decide (k' = k0)); [done|apply IH].
Qed.

(** Assigning to a key that is not there appends. *)
Lemma dict_set_fresh d k v :
  dict_get d k = None -> dict_set d k v = (d ++ [(k, v)])%list.
Proof.
  induction d as [|[k' v'] d IH]; [done|]. cbn.
  destruct (decide (k = k')); [done|]. intros Hnone. by rewrite IH.
Qed.

Lemma dict_index_fresh d k v :
  dict_get d k = None ->
  dict_index (d ++ [(k, v)])%list k = Some (Z.of_nat (length d)).
Proof.
  induction d as [|[k' v'] d IH]; cbn.
  - by rewrite decide_True.
  - destruct (decide (k = k')); [done|]. intros Hnone.
    rewrite (IH Hnone). cbn. f_equal. lia.
Qed.

Lemma dict_index_app d d' k (i : Z) :
  dict_index d k = Some i -> dict_index (d ++ d')%list k = Some i.
Proof.
  revert i. induction d as [|[k' v'] d IH]; intros i; [done|]. cbn.
  destruct (decide (k = k')); [done|].
  destruct (dict_index d k) as [j|] eqn:Hj; [|done].
  cbn. intros [= <-]. by rewrite (IH j eq_refl).
Qed.

Lemma dict_index_present d k (i : Z) :
  dict_index d k = Some i -> is_Some (dict_get d k).
Proof.
  revert i. induction d as [|[k' v'] d IH]; intros i; [done|]. cbn.
  destruct (decide (k = k')); [by eexists|].
  destruct (dict_index d k) as [j|] eqn:Hj; [|done]. intros _. by apply (IH j).
Qed.
End DictFacts.

(** X10. In the in-memory item repository, starting from the empty
    repository or from any state it reaches, [create] files the new item
    under an id no item had, [get] on that id then returns the item,
    [get] on every other id returns what it did, and [list] returns the
    former listing followed by the new item; the item carries the
    payload's fields and the clock value. *)
Theorem ItemDB_create_spec (now : Z) (payload : ItemCreate.t) (db : ItemDB.t) :
  ItemDB_wf db ->
  let item := (ItemDB.create now payload db).1 in
  let db' := (ItemDB.create now payload db).2 in
  ItemDB_wf db'
  /\ ItemDB.get (ItemRead.id item) db = None
  /\ ItemDB.get (ItemRead.id item) db' = Some item
  /\ (forall k, k <> ItemRead.id item -> ItemDB.get k db' = ItemDB.get k db)
  /\ ItemDB.list db' = (ItemDB.list db ++ [item])%list
  /\ item = {| ItemRead.id := ItemDB._id_counter db;
               ItemRead.created_at := now;
               ItemRead.name := ItemCreate.name payload;
               ItemRead.description := ItemCreate.description payload;
               ItemRead.price := ItemCreate.price payload;
               ItemRead.tags := ItemCreate.tags payload;
               ItemRead.in_stock := ItemCreate.in_stock payload |}.
Proof.
  intros Hwf item db'. subst item db'. unfold ItemDB.create, ItemDB.get, ItemDB.list.
  cbn [fst snd ItemRead.id ItemDB._items ItemDB._id_counter].
  assert (Hfresh : dict_get (ItemDB._items db) (ItemDB._id_counter db) = None).
  { destruct (dict_get _ _) as [item|] eqn:Hget; [|done].
    apply Hwf in Hget as [_ ?]. lia. }
  split; [|split; [done|split; [apply dict_get_set_eq|split; [|split; [|done]]]]].
  - intros k item Hget. cbn [ItemDB._items ItemDB._id_counter] in *.
    destruct (decide (ItemDB._id_counter db = k)) as [<-|Hne].
    + rewrite dict_get_set_eq in Hget. injection Hget as <-. cbn. lia.
    + rewrite dict_get_set_ne in Hget by done. apply Hwf in Hget. lia.
  - intros k Hne. by apply dict_get_set_ne.
  - by rewrite dict_set_fresh, fmap_app.
Qed.

Lemma ItemDB_init_wf : ItemDB_wf ItemDB.init.
Proof. intros k item Hget. discriminate Hget. Qed.



Lemma UserDB_init_wf : UserDB_wf UserDB.init.
Proof. reflexivity. Qed.

Lemma UserDB_create_fresh (payload : UserCreate.t) (hashed_password : string)
    (db : UserDB.t) :
  UserDB.get_by_username (UserCreate.username payload) db = None ->
  exists user,
    user = {| UserInDB.username := UserCreate.username payload;
              UserInDB.full_name := UserCreate.full_name payload;
              UserInDB.email := UserCreate.email payload;
              UserInDB.is_active := UserCreate.is_active payload;
              UserInDB.scopes := list_or (UserCreate.scopes payload) [];
              UserInDB.hashed_password := hashed_password |}
    /\ UserDB.create payload hashed_password db =
         (Ok (UserDB.read_as (UserDB._id_counter db) user),
          {| UserDB._users :=
               (UserDB._users db ++ [(UserCreate.username payload, user)])%list;
             UserDB._id_counter := UserDB._id_counter db + 1 |}).
Proof.
  unfold UserDB.get_by_username, UserDB.create. intros Hfresh. rewrite Hfresh.
  eexists. split; [reflexivity|]. by rewrite dict_set_fresh.
Qed.

(** X12. In the in-memory user repository [create] takes ids from a
    counter while [to_read] computes them from the position of the name
    among the keys, and the two agree: from the empty repository or any
    state it reaches, the record [to_read] builds for a user just created
    is the one [create] returned, and it stays the same after any later
    [create], accepted or refused. *)
Theorem UserDB_to_read_agrees (payload : UserCreate.t) (hashed_password : string)
    (db : UserDB.t) (created : UserRead.t) :
  UserDB_wf db ->
  (UserDB.create payload hashed_password db).1 = Ok created ->
  let db' := (UserDB.create payload hashed_password db).2 in
  UserDB_wf db'
  /\ (exists user,
        UserDB.get_by_username (UserCreate.username payload) db' = Some user
        /\ UserInDB.hashed_password user = hashed_password
        /\ UserDB.to_read (UserCreate.username payload) user db' = Ok created
        /\ forall later later_hash,
             UserDB.to_read (UserCreate.username payload) user
               (UserDB.create later later_hash db').2 = Ok created).
Proof.
  intros Hwf Hcreated db'. subst db'.
  destruct (UserDB.get_by_username (UserCreate.username payload) db) as [old|]
    eqn:Hget.
  { unfold UserDB.create, UserDB.get_by_username in *. by rewrite Hget in Hcreated. }
  destruct (UserDB_create_fresh payload hashed_password db Hget)
    as (user & Huser & Hcreate).
  rewrite Hcreate in Hcreated |- *. cbn [fst snd] in *. injection Hcreated as <-.
  assert (Hindex : dict_index
            (UserDB._users db ++ [(UserCreate.username payload, user)])%list
            (UserCreate.username payload)
          = Some (Z.of_nat (length (UserDB._users db)))).
  { by apply dict_index_fresh. }
  split.
  { unfold UserDB_wf in *. cbn [UserDB._users UserDB._id_counter].
    rewrite length_app. cbn [length]. lia. }
  exists user. split.
  { unfold UserDB.get_by_username. cbn [UserDB._users].
    rewrite <- (dict_set_fresh _ _ user Hget). apply dict_get_set_eq. }
  split; [by subst user|]. split.
  { unfold UserDB.to_read. cbn [UserDB._users]. rewrite Hindex.
    unfold UserDB_wf in Hwf. by rewrite Hwf. }
  intros later later_hash. unfold UserDB.to_read, UserDB.create.
  cbn [UserDB._users UserDB._id_counter].
  destruct (dict_get _ (UserCreate.username later)) as [taken|] eqn:Hlater;
    cbn [snd UserDB._users].
  - rewrite Hindex. unfold UserDB_wf in Hwf. by rewrite Hwf.
  - rewrite (dict_set_fresh _ _ _ Hlater), (dict_index_app _ _ _ _ Hindex).
    unfold UserDB_wf in Hwf. by rewrite Hwf.
Qed.

(** X13. The in-memory [create] refuses a name that is taken with
    [ValueError] and leaves the repository, counter included, as it was;
    for a free name it stores the record with the given hash, and no
    other name's lookup changes. *)
Theorem UserDB_create_spec (payload : UserCreate.t) (hashed_password : string)
    (db : UserDB.t) :
  (forall taken,
     UserDB.get_by_username (UserCreate.username payload) db = Some taken ->
     UserDB.create payload hashed_password db
     = (Raise (ValueError "User already exists."), db))
  /\ (UserDB.get_by_username (UserCreate.username payload) db = None ->
      exists created user,
        (UserDB.create payload hashed_password db).1 = Ok created
        /\ UserRead.id created = UserDB._id_counter db
        /\ UserRead.username created = UserCreate.username payload
        /\ UserDB.get_by_username (UserCreate.username payload)
             (UserDB.create payload hashed_password db).2 = Some user
        /\ UserInDB.hashed_password user = hashed_password
        /\ UserInDB.scopes user = UserCreate.scopes payload)
  /\ (forall other,
        other <> UserCreate.username payload ->
        UserDB.get_by_username other (UserDB.create payload hashed_password db).2
        = UserDB.get_by_username other db).
Proof.
  split; [|split].
  - intros taken Htaken. unfold UserDB.create, UserDB.get_by_username in *.
    by rewrite Htaken.
  - intros Hfree.
    destruct (UserDB_create_fresh payload hashed_password db Hfree)
      as (user & Huser & Hcreate).
    rewrite Hcreate. cbn [fst snd]. eexists _, user.
    split; [reflexivity|]. split; [reflexivity|]. split; [by subst user|].
    split.
    { unfold UserDB.get_by_username. cbn [UserDB._users].
      rewrite <- (dict_set_fresh _ _ user Hfree). apply dict_get_set_eq. }
    subst user. split; [reflexivity|]. cbn. apply list_or_nil.
  - intros other Hother. unfold UserDB.create, UserDB.get_by_username.
    destruct (dict_get (UserDB._users db) (UserCreate.username payload)); [done|].
    cbn [snd UserDB._users]. by apply dict_get_set_ne.
Qed.

(** ** Creating items in the SQL store *)

Lemma create_item_row (now : Z) (payload : ItemCreate.t) (db : Database) :
  SQLItemRepo.create now payload db =
    (Ok {| ItemRead.id := items_seq db + 1;
           ItemRead.name := ItemCreate.name payload;
           ItemRead.description := ItemCreate.description payload;
           ItemRead.price := ItemCreate.price payload;
           ItemRead.tags := ItemCreate.tags payload;
           ItemRead.in_stock := ItemCreate.in_stock payload;
           ItemRead.created_at := now |},
     set_items
       (<[items_seq db + 1 :=
            {| Items.row_id := items_seq db + 1;
               Items.row_name := ItemCreate.name payload;
               Items.row_description := ItemCreate.description payload;
               Items.row_price := ItemCreate.price payload;
               Items.row_tags := Some (ItemCreate.tags payload);
               Items.row_in_stock := ItemCreate.in_stock payload;
               Items.row_created_at := now |}]> (items db))
       (items_seq db + 1) db).
Proof. reflexivity. Qed.

Lemma create_item_wf (now : Z) (payload : ItemCreate.t) (db : Database) :
  items_wf db -> items_wf (SQLItemRepo.create now payload db).2.
Proof.
  intros Hwf k r. rewrite create_item_row. cbn [snd items items_seq set_items].
  destruct (decide (items_seq db + 1 = k)) as [<-|Hne].
  - rewrite lookup_insert_eq. intros [= <-]. cbn. lia.
  - rewrite lookup_insert_ne by done. intros Hrow. apply Hwf in Hrow. lia.
Qed.

Lemma create_item_keeps (now : Z) (payload : ItemCreate.t) (db : Database)
    (k : Z) (r : Items.row) :
  items_wf db -> items db !! k = Some r ->
  items (SQLItemRepo.create now payload db).2 !! k = Some r.
Proof.
  intros Hwf Hrow. rewrite create_item_row. cbn [snd items set_items].
  rewrite lookup_insert_ne; [done|]. apply Hwf in Hrow. lia.
Qed.

Lemma empty_db_items_wf : items_wf empty_db.
Proof.
  intros k r Hrow. unfold empty_db in Hrow. cbn [items] in Hrow.
  by rewrite lookup_empty in Hrow.
Qed.

(** [get] returns an item the table holds under an id that fits. *)
Lemma get_stored (db : Database) (item : ItemRead.t) :
  sqlite_integer (ItemRead.id item) = true -> stored_as db item ->
  SQLItemRepo.get (ItemRead.id item) db = Ok (Some item).
Proof.
  intros Hfits (r & Hrow & Hread). rewrite (get_in_range _ _ Hfits), Hrow.
  by rewrite Hread.
Qed.


Lemma create_items_bulk_loop_spec (now : Z) (payloads : list ItemCreate.t) :
  forall (created_items : list ItemRead.t) (repo : Database),
  exists created repo',
    v2.create_items_bulk_loop now payloads created_items repo
      = (Ok (created_items ++ created)%list, repo')
    /\ ItemRead.id <$> created
       = seqZ (items_seq repo + 1) (Z.of_nat (length payloads))
    /\ ItemRead.name <$> created = ItemCreate.name <$> payloads
    /\ items_seq repo' = items_seq repo + Z.of_nat (length payloads)
    /\ (users repo' = users repo /\ users_seq repo' = users_seq repo)
    /\ (items_wf repo ->
        items_wf repo'
        /\ (forall k r, items repo !! k = Some r -> items repo' !! k = Some r)
        /\ forall item, item ∈ created -> stored_as repo' item).
Proof.
  induction payloads as [|payload payloads IH]; intros created_items repo.
  - exists [], repo. rewrite app_nil_r.
    split; [reflexivity|]. split; [reflexivity|]. split; [reflexivity|].
    split; [cbn [length]; lia|]. split; [by split|].
    intros Hwf. split; [done|]. split; [done|].
    intros item Hin. by apply elem_of_nil in Hin.
  - cbn [v2.create_items_bulk_loop]. rewrite create_item_row.
    set (item := {| ItemRead.id := items_seq repo + 1 |}).
    set (repo1 := set_items _ _ repo).
    destruct (IH (created_items ++ [item])%list repo1)
      as (created & repo' & Hrun & Hids & Hnames & Hseq & [Husers Huseq] & Hwf).
    exists (item :: created), repo'. split.
    { rewrite Hrun. by rewrite <- app_assoc. }
    split.
    { cbn [fmap list_fmap length]. rewrite Nat2Z.inj_succ, seqZ_cons by lia.
      cbn [ItemRead.id item]. f_equal. rewrite Hids. cbn [items_seq repo1 set_items].
      f_equal; lia. }
    split; [cbn; by rewrite Hnames|].
    split; [rewrite Hseq; cbn; lia|]. split; [by rewrite Husers, Huseq|].
    intros Hrepo.
    assert (Hrepo1 : items_wf repo1).
    { pose proof (create_item_wf now payload repo Hrepo) as Hwf1.
      by rewrite create_item_row in Hwf1. }
    destruct (Hwf Hrepo1) as (Hwf' & Hkeeps & Hgets).
    split; [done|]. split.
    { intros k r Hrow. apply Hkeeps.
      pose proof (create_item_keeps now payload repo k r Hrepo Hrow) as Hkept.
      by rewrite create_item_row in Hkept. }
    intros it Hin. apply elem_of_cons in Hin as [->|Hin]; [|by apply Hgets].
    eexists. split.
    { apply Hkeeps. subst repo1. cbn [items set_items ItemRead.id item].
      apply lookup_insert_eq. }
    reflexivity.
Qed.

(** X15. [create_items_bulk] never raises: for every list of payloads it
    returns one item per payload, in the order given, with consecutive
    ids that continue the store's sequence, and it advances the sequence
    by the number of payloads; on a store where rows are filed under
    their ids, the table then holds every created item under its id, so
    that [get] returns it while the id fits the store's integer type,
    and every earlier row is kept. *)
Theorem create_items_bulk_spec (now : Z) (payloads : list ItemCreate.t)
    (repo : Database) (cache : Cache) :
  exists created repo',
    v2.create_items_bulk now payloads repo cache = (Ok created, repo', cache)
    /\ length created = length payloads
    /\ ItemRead.id <$> created
       = seqZ (items_seq repo + 1) (Z.of_nat (length payloads))
    /\ ItemRead.name <$> created = ItemCreate.name <$> payloads
    /\ items_seq repo' = items_seq repo + Z.of_nat (length payloads)
    /\ (items_wf repo ->
        items_wf repo'
        /\ (forall k r, items repo !! k = Some r -> items repo' !! k = Some r)
        /\ forall item, item ∈ created ->
             stored_as repo' item
             /\ (sqlite_integer (ItemRead.id item) = true ->
                 SQLItemRepo.get (ItemRead.id item) repo' = Ok (Some item))).
Proof.
  destruct (create_items_bulk_loop_spec now payloads [] repo)
    as (created & repo' & Hrun & Hids & Hnames & Hseq & _ & Hwf).
  exists created, repo'. unfold v2.create_items_bulk. rewrite Hrun.
  split; [reflexivity|]. split.
  { apply (f_equal length) in Hnames. by rewrite !length_fmap in Hnames. }
  split; [exact Hids|]. split; [exact Hnames|]. split; [exact Hseq|].
  intros Hrepo. destruct (Hwf Hrepo) as (Hwf' & Hkeeps & Hstored).
  split; [done|]. split; [done|].
  intros item Hin. split; [by apply Hstored|].
  intros Hfits. apply get_stored; [done|by apply Hstored].
Qed.

(** ** The loader and the update endpoint *)

(** X16. For an id that fits the store's integer type,
    [get_item_or_404] answers 404 exactly when the table has no row
    under the id; for one that does not fit it raises [OverflowError],
    which is answered 500. When it returns an item from a store whose
    rows are filed under their ids, the item has that id, and
    [update_item] of v2 called with it never takes its own 404 branch:
    it either returns the updated item, which [get] then returns, with
    the cache cleared, or raises [IntegrityError] or [ValidationError]
    with the cache as it was. *)
Theorem update_item_after_loader (item_id : Z) (changes : ItemUpdate.t)
    (repo : Database) (cache : Cache) :
  (get_item_or_404 item_id repo
     = Raise (HTTPException HTTP_404_NOT_FOUND "Item not found." None)
   <-> sqlite_integer item_id = true /\ items repo !! item_id = None)
  /\ (sqlite_integer item_id = false ->
        get_item_or_404 item_id repo = Raise OverflowError
        /\ response_status OverflowError = 500)
  /\ (forall item,
        items_wf repo ->
        get_item_or_404 item_id repo = Ok item ->
        ItemRead.id item = item_id
        /\ sqlite_integer item_id = true
        /\ match v2.update_item item changes repo cache with
           | (Ok updated, repo', cache') =>
               cache' = ∅ /\ SQLItemRepo.get item_id repo' = Ok (Some updated)
           | (Raise e, repo', cache') =>
               (e = IntegrityError \/ e = ValidationError) /\ cache' = cache
           end).
Proof.
  split; [|split].
  - unfold get_item_or_404, SQLItemRepo.get.
    destruct (sqlite_integer item_id); cbn [negb]; [|split; [done|by intros [? _]]].
    destruct (items repo !! item_id) as [r|]; [|done].
    split; [|by intros [_ ?]]. destruct r as [i n d p [tg|] s c]; by cbn.
  - intros Hfits. unfold get_item_or_404, SQLItemRepo.get. by rewrite Hfits.
  - intros item Hwf Hloaded.
    assert (Hget : SQLItemRepo.get item_id repo = Ok (Some item)).
    { unfold get_item_or_404 in Hloaded.
      by destruct (SQLItemRepo.get item_id repo) as [[found|]|e]; simplify_eq/=. }
    apply get_existing in Hget as (Hfits & r & tg & Hrow & Htg & ->).
    destruct (Hwf _ _ Hrow) as [Hid _]. cbn [ItemRead.id].
    split; [done|]. split; [done|].
    unfold v2.update_item. cbn [ItemRead.id]. rewrite Hid.
    unfold SQLItemRepo.update. rewrite Hfits, Hrow. cbn [negb].
    destruct (Items.store _) as [r'|]; [|by split; [left|]].
    destruct (SQLItemRepo._to_read (Items.load r')) as [updated|e] eqn:Hread; cbn.
    + split; [done|]. rewrite (get_in_range _ _ Hfits). cbn [items set_items].
      by rewrite lookup_insert_eq, Hread.
    + split; [|done]. right.
      destruct r' as [i' n' d' p' [tg'|] s' c']; cbn in Hread; by simplify_eq.
Qed.

(** ** From signup to the profile *)

Section SignupLogin.
Context `{Primitives}.

Lemma signup_fresh (salt : string) (payload : UserCreate.t) (db : Database)
    (hashed : string) :
  get_password_hash salt (UserCreate.password payload) = Ok hashed ->
  UserCreate.username payload ∉ (Users.username <$> users db) ->
  exists obj,
    signup salt payload db =
      (Ok (SQLUserRepo._to_read obj), set_users (users db ++ [obj]) (Users.id obj) db)
    /\ obj = {| Users.id := users_seq db + 1;
                Users.username := UserCreate.username payload;
                Users.full_name := UserCreate.full_name payload;
                Users.email := UserCreate.email payload;
                Users.is_active := UserCreate.is_active payload;
                Users.scopes := UserCreate.scopes payload;
                Users.hashed_password := hashed |}
    /\ SQLUserRepo.get_by_username (UserCreate.username payload)
         (signup salt payload db).2 = Some (SQLUserRepo._to_in_db obj)
    /\ forall other, other <> UserCreate.username payload ->
         SQLUserRepo.get_by_username other (signup salt payload db).2
         = SQLUserRepo.get_by_username other db.
Proof.
  intros Hhash Hfree. apply select_by_username_nil in Hfree.
  rewrite (signup_is_create _ _ _ _ Hhash), (create_hashed _ _ _ _ Hhash). cbv zeta.
  rewrite Hfree. eexists. split; [reflexivity|]. split; [reflexivity|].
  cbn [snd Users.id]. unfold SQLUserRepo.get_by_username. split.
  - rewrite select_by_username_app. fold (SQLUserRepo.select_by_username
      (UserCreate.username payload) db). rewrite Hfree. cbn [Users.username].
    by rewrite decide_True.
  - intros other Hother. rewrite select_by_username_app. cbn [Users.username].
    rewrite decide_False by done. by rewrite app_nil_r.
Qed.

(** X17. With a password that the hasher accepts and verifies against
    the hash it made of it, a signup under a name the store did not hold
    makes the account usable at once: the returned profile carries the
    payload's fields and a new id, a token exchange with the same
    password succeeds, the token's scopes are the requested ones or,
    when none are requested, those of the signup, and until the token
    expires an auth-only endpoint gets the user from [get_current_user]
    when the account is active and a 401 when it was created inactive. A
    password that the hasher finds wrong for the stored hash is answered
    401, one on which the verification raises is answered with that
    exception, and no other user's lookup changes. *)
Theorem signup_then_login (salt : string) (payload : UserCreate.t) (db : Database)
    (requested : list string) (now : Z) (hashed : string) :
  get_password_hash salt (UserCreate.password payload) = Ok hashed ->
  verify_password (UserCreate.password payload) hashed = Ok true ->
  UserCreate.username payload ∉ (Users.username <$> users db) ->
  let db' := (signup salt payload db).2 in
  let user :=
    {| UserInDB.username := UserCreate.username payload;
       UserInDB.full_name := UserCreate.full_name payload;
       UserInDB.email := UserCreate.email payload;
       UserInDB.is_active := UserCreate.is_active payload;
       UserInDB.scopes := UserCreate.scopes payload;
       UserInDB.hashed_password := hashed |} in
  (signup salt payload db).1
    = Ok {| UserRead.id := users_seq db + 1;
            UserRead.username := UserCreate.username payload;
            UserRead.full_name := UserCreate.full_name payload;
            UserRead.email := UserCreate.email payload;
            UserRead.is_active := UserCreate.is_active payload;
            UserRead.scopes := UserCreate.scopes payload |}
  /\ authenticate_user db' (UserCreate.username payload) (UserCreate.password payload)
     = Ok (Some user)
  /\ (exists token payload_claims,
        login_for_access_token
          {| form_username := UserCreate.username payload;
             form_password := UserCreate.password payload;
             form_scopes := requested |} db' now
        = Ok {| access_token := token; token_type := "bearer" |}
        /\ (forall t, t <= now + 60 * ACCESS_TOKEN_EXPIRE_MINUTES ->
              jwt.decode token SECRET_KEY [ALGORITHM] t = inr payload_claims
              /\ get_current_user [] token db' t =
                   if UserCreate.is_active payload then Ok user
                   else Raise unauthorized_exception)
        /\ sub payload_claims = Some (UserCreate.username payload)
        /\ granted_scopes payload_claims
           = list_or requested (UserCreate.scopes payload))
  /\ (forall wrong,
        verify_password wrong hashed = Ok false ->
        login_for_access_token
          {| form_username := UserCreate.username payload;
             form_password := wrong; form_scopes := requested |} db' now
        = Raise (HTTPException HTTP_401_UNAUTHORIZED
                   "Incorrect username or password." None))
  /\ (forall refused e,
        verify_password refused hashed = Raise e ->
        login_for_access_token
          {| form_username := UserCreate.username payload;
             form_password := refused; form_scopes := requested |} db' now
        = Raise e)
  /\ (forall other, other <> UserCreate.username payload ->
        SQLUserRepo.get_by_username other db' = SQLUserRepo.get_by_username other db).
Proof.
  intros Hhash Hverify Hfree db' user.
  destruct (signup_fresh salt payload db hashed Hhash Hfree)
    as (obj & Hsignup & Hobj & Hget & Hothers).
  assert (Huser : SQLUserRepo._to_in_db obj = user) by (by subst obj).
  rewrite Huser in Hget. fold db' in Hget, Hothers.
  assert (Hauth : authenticate_user db' (UserCreate.username payload)
                    (UserCreate.password payload) = Ok (Some user)).
  { unfold authenticate_user. rewrite Hget. cbn [UserInDB.hashed_password user].
    by rewrite Hverify. }
  split; [rewrite Hsignup; by subst obj|]. split; [exact Hauth|].
  split; [|split; [|split; [|exact Hothers]]].
  - unfold login_for_access_token. cbn [form_username form_password form_scopes].
    rewrite Hauth. cbn [mbind result_bind].
    rewrite create_access_token_eq. cbn [sub scopes UserInDB.username user].
    set (claims := {| sub := Some (UserCreate.username payload);
                      scopes := Some (list_or requested (UserInDB.scopes user));
                      exp := Some (now + 60 * ACCESS_TOKEN_EXPIRE_MINUTES) |}).
    exists (jwt.encode claims SECRET_KEY ALGORITHM), claims.
    split; [reflexivity|]. split; [|by split].
    intros t Ht.
    assert (Hdecode : jwt.decode (jwt.encode claims SECRET_KEY ALGORITHM) SECRET_KEY
                        [ALGORITHM] t = inr claims).
    { rewrite decode_encode. cbn [exp claims].
      by destruct (Z.ltb_spec (now + 60 * ACCESS_TOKEN_EXPIRE_MINUTES) t); [lia|]. }
    split; [exact Hdecode|].
    rewrite (get_current_user_decoded _ _ _ _ claims (UserCreate.username payload)
               Hdecode eq_refl).
    rewrite scope_gate_open by (intros scope Hin; by apply elem_of_nil in Hin).
    unfold liveness_outcome. by rewrite Hget.
  - intros wrong Hwrong. unfold login_for_access_token, authenticate_user.
    cbn [form_username form_password]. rewrite Hget.
    cbn [UserInDB.hashed_password user]. by rewrite Hwrong.
  - intros refused e Hrefused. unfold login_for_access_token, authenticate_user.
    cbn [form_username form_password]. rewrite Hget.
    cbn [UserInDB.hashed_password user]. by rewrite Hrefused.
Qed.
End SignupLogin.

(** ** What every write keeps true of the store *)

Lemma store_row_id (obj : Items.t) (r : Items.row) :
  Items.store obj = Some r -> Items.row_id r = Items.id obj.
Proof.
  unfold Items.store.
  destruct (Items.name obj), (Items.price obj), (Items.in_stock obj); by intros [= <-].
Qed.

Lemma update_wf (item_id : Z) (changes : ItemUpdate.t) (db : Database) :
  items_wf db -> items_wf (SQLItemRepo.update item_id changes db).2.
Proof.
  intros Hwf. unfold SQLItemRepo.update.
  destruct (sqlite_integer item_id); [|done]. cbn [negb].
  destruct (items db !! item_id) as [r|] eqn:Hrow; [|done].
  rewrite setattr_dump.
  destruct (Items.store _) as [r'|] eqn:Hstore; [|done].
  cbn [snd]. intros k r0. cbn [items items_seq set_items].
  destruct (decide (item_id = k)) as [<-|Hne].
  - rewrite lookup_insert_eq. intros [= <-].
    destruct (Hwf _ _ Hrow) as [Hid Hseq]. split; [|done].
    apply store_row_id in Hstore. by rewrite Hstore.
  - rewrite lookup_insert_ne by done. apply Hwf.
Qed.

Lemma update_keeps_users (item_id : Z) (changes : ItemUpdate.t) (db : Database) :
  users (SQLItemRepo.update item_id changes db).2 = users db
  /\ users_seq (SQLItemRepo.update item_id changes db).2 = users_seq db.
Proof.
  unfold SQLItemRepo.update. destruct (sqlite_integer item_id); [|done].
  cbn [negb]. destruct (items db !! item_id); [|done].
  by destruct (Items.store _).
Qed.

Lemma store_wf_items (db db' : Database) :
  store_wf db -> items_wf db' -> users db' = users db -> users_seq db' = users_seq db ->
  store_wf db'.
Proof.
  intros (_ & Hnames & Hids & Hbound) Hitems Husers Hseq.
  unfold store_wf. by rewrite Husers, Hseq.
Qed.

(** X18. The store stays well formed under every write: starting from
    the empty store, after any signup, item create, item update, bulk
    create or v2 write handler, accepted or refused, item rows are filed
    under their own ids below the sequence, user names are pairwise
    distinct, user ids are pairwise distinct and none exceeds the
    sequence. *)
Theorem store_wf_preserved `{Primitives} :
  store_wf empty_db
  /\ forall db,
       store_wf db ->
       (forall salt payload, store_wf (signup salt payload db).2)
       /\ (forall now payload, store_wf (SQLItemRepo.create now payload db).2)
       /\ (forall item_id changes, store_wf (SQLItemRepo.update item_id changes db).2)
       /\ (forall now payloads cache,
             store_wf (v2.create_items_bulk now payloads db cache).1.2)
       /\ (forall now payload cache, store_wf (v2.create_item now payload db cache).1.2)
       /\ (forall item changes cache,
             store_wf (v2.update_item item changes db cache).1.2).
Proof.
  split.
  { split; [apply empty_db_items_wf|]. cbn. repeat split; constructor. }
  intros db Hwf.
  assert (Hcreate : forall now payload, store_wf (SQLItemRepo.create now payload db).2).
  { intros now payload. apply store_wf_items with db; [done| |done|done].
    apply create_item_wf, Hwf. }
  assert (Hupdate : forall item_id changes,
            store_wf (SQLItemRepo.update item_id changes db).2).
  { intros item_id changes.
    destruct (update_keeps_users item_id changes db) as [Husers Hseq].
    apply store_wf_items with db; [done| |done|done]. apply update_wf, Hwf. }
  split; [|split; [exact Hcreate|split; [exact Hupdate|split; [|split]]]].
  - intros salt payload.
    destruct (get_password_hash salt (UserCreate.password payload))
      as [hashed|e] eqn:Hhash;
      [|by destruct (create_hasher_raises salt payload db e Hhash) as [_ ->]].
    rewrite (signup_is_create _ _ _ _ Hhash), (create_hashed _ _ _ _ Hhash). cbv zeta.
    cbn [Users.username Users.id].
    destruct (SQLUserRepo.select_by_username (UserCreate.username payload) db)
      as [|taken rest] eqn:Hsel; [|done].
    destruct Hwf as (Hitems & Hnames & Hids & Hbound). cbn [snd].
    assert (Hfree : UserCreate.username payload ∉ (Users.username <$> users db))
      by (by apply select_by_username_nil).
    split; [done|]. cbn [users users_seq set_users].
    rewrite !fmap_app. cbn [fmap list_fmap Users.username Users.id].
    split; [|split].
    + apply NoDup_app. split; [done|]. split; [|apply NoDup_singleton].
      intros name Hin Hnew. apply list_elem_of_singleton in Hnew. by subst name.
    + apply NoDup_app. split; [done|]. split; [|apply NoDup_singleton].
      intros id Hin Hnew. apply list_elem_of_singleton in Hnew. subst id.
      apply list_elem_of_fmap in Hin as (obj & Hid & Hobj).
      apply (proj1 (Forall_forall _ _) Hbound) in Hobj. lia.
    + apply Forall_app. split.
      * eapply Forall_impl; [exact Hbound|]. intros obj Hobj. cbn in Hobj |- *. lia.
      * constructor; [cbn; lia|constructor].
  - intros now payloads cache. unfold v2.create_items_bulk. cbn [fst snd].
    destruct (create_items_bulk_loop_spec now payloads [] db)
      as (created & repo' & Hrun & _ & _ & _ & [Husers Hseq] & Hkeep).
    rewrite Hrun. cbn [snd]. apply store_wf_items with db; [done| |done|done].
    apply Hkeep, Hwf.
  - intros now payload cache. unfold v2.create_item.
    specialize (Hcreate now payload).
    by destruct (SQLItemRepo.create now payload db) as [[item|e] repo'].
  - intros item changes cache. unfold v2.update_item.
    specialize (Hupdate (ItemRead.id item) changes).
    by destruct (SQLItemRepo.update (ItemRead.id item) changes db)
      as [[[updated|]|e] repo'].
Qed.

(** ** The inventory helper *)

(** X19. [fetch_inventory] returns a count between 10 and 14 for every
    id, negative ones included (the remainder takes the sign of the
    divisor), equal for ids that differ by 5, and 10 for the multiples
    of 5. *)
Theorem fetch_inventory_bounds (item_id : Z) :
  10 <= fetch_inventory item_id <= 14
  /\ fetch_inventory (item_id + 5) = fetch_inventory item_id
  /\ (forall k, fetch_inventory (5 * k) = 10).
Proof.
  unfold fetch_inventory. split.
  - pose proof (Z.mod_pos_bound item_id 5 ltac:(lia)). lia.
  - split.
    + replace (item_id + 5) with (item_id + 1 * 5) by lia.
      by rewrite Z.mod_add.
    + intros k. replace (5 * k) with (0 + k * 5) by lia.
      by rewrite Z.mod_add.
Qed.

(** ** The further statements on the sample data *)

(** [get_pagination_bounds] with the default settings: a request for 80
    items a page gets 50. *)
Lemma get_pagination_bounds_sample :
  exists pagination,
    get_pagination get_settings 3 (Some 80) = Ok pagination
    /\ page pagination = 3
    /\ page_size pagination = 50.
Proof.
  destruct (get_pagination_bounds get_settings 3 (Some 80))
    as (pagination & Hrun & Hpage & Hsize & _).
  - discriminate.
  - intros size [= <-]. split; discriminate.
  - discriminate.
  - exists pagination. by repeat split.
Defined.

(** [SQLItemRepo_list_spec] on the store of three items under limit 2. *)
Lemma SQLItemRepo_list_spec_sample :
  exists listed,
    SQLItemRepo_list (H := sample_text_ops) None 2 three_items_db = Ok listed
    /\ ItemRead.id <$> listed = [1; 2]
    /\ StronglySorted Z.le (ItemRead.id <$> listed)
    /\ length listed = 2%nat.
Proof.
  eexists. split; [by vm_compute|]. split; [reflexivity|].
  split; [|reflexivity].
  by apply (SQLItemRepo_list_spec (H := sample_text_ops) None 2 three_items_db _ eq_refl).
Defined.

(** [v2_list_items_paged_first_page_only] on the store of three items:
    page 2 of size 2 is empty although item 3 is stored. *)
Lemma v2_list_items_paged_sample :
  SQLItemRepo.get 3 three_items_db <> Ok None
  /\ v2_list_items_paged (H := sample_text_ops) {| page := 2; page_size := 2 |}
       three_items_db = Ok ([], 2).
Proof.
  split; [discriminate|].
  destruct (v2_list_items_paged (H := sample_text_ops) {| page := 2; page_size := 2 |}
              three_items_db) as [[returned logged]|e] eqn:Hrun; [|discriminate Hrun].
  destruct (v2_list_items_paged_first_page_only (H := sample_text_ops)
              {| page := 2; page_size := 2 |} three_items_db returned logged Hrun)
    as (-> & _ & Hempty); [discriminate|].
  by rewrite Hempty.
Defined.

(** [list_items_reads_25] on the store of three items with limit 100. *)
Lemma list_items_reads_25_sample :
  exists returned,
    v1_list_items (H := sample_text_ops) three_items_db None 100 = Ok returned
    /\ ItemRead.id <$> returned = [1; 2; 3]
    /\ (length returned <= 25)%nat.
Proof.
  eexists. split; [by vm_compute|]. split; [reflexivity|].
  by apply (list_items_reads_25 (H := sample_text_ops) three_items_db None 100 _
              eq_refl).
Defined.

(** [SQLItemRepo_list_lowest_ids] on the store of three items under
    limit 2: the row left out, of id 3, lies above the two listed. *)
Lemma SQLItemRepo_list_lowest_ids_sample :
  exists listed,
    SQLItemRepo_list (H := sample_text_ops) None 2 three_items_db = Ok listed
    /\ ItemRead.id <$> listed = [1; 2]
    /\ items three_items_db !! 3 = Some shirt_row
    /\ forall item, item ∈ listed -> ItemRead.id item < 3.
Proof.
  eexists. split; [by vm_compute|]. split; [reflexivity|]. split; [reflexivity|].
  destruct (SQLItemRepo_list_lowest_ids (H := sample_text_ops) None 2 three_items_db
              _ eq_refl) as [Hlowest _].
  apply (Hlowest 3 shirt_row); [reflexivity|discriminate|].
  intros Hin. apply elem_of_cons in Hin as [Heq|Hin]; [discriminate Heq|].
  apply elem_of_cons in Hin as [Heq|Hin]; [discriminate Heq|].
  by apply elem_of_nil in Hin.
Defined.

(** [v1_list_items_paged_window] on the store of three items: page 14 of
    size 2 starts at offset 26 and is empty. *)
Lemma v1_list_items_paged_window_sample :
  v1_list_items_paged (H := sample_text_ops) {| page := 14; page_size := 2 |}
    three_items_db = Ok [].
Proof.
  destruct (v1_list_items_paged (H := sample_text_ops) {| page := 14; page_size := 2 |}
              three_items_db) as [returned|e] eqn:Hrun; [|discriminate Hrun].
  destruct (v1_list_items_paged_window (H := sample_text_ops)
              {| page := 14; page_size := 2 |} three_items_db returned Hrun)
    as (_ & _ & Hempty); [discriminate|discriminate|].
  rewrite Hempty; [reflexivity|discriminate].
Defined.

(** [ItemDB_create_spec] on the empty in-memory repository. *)
Lemma ItemDB_create_spec_sample :
  ItemDB_wf ItemDB.init
  /\ ItemDB.get 1 (ItemDB.create 1700000000 notebook ItemDB.init).2
     = Some (ItemDB.create 1700000000 notebook ItemDB.init).1
  /\ ItemDB.list (ItemDB.create 1700000000 notebook ItemDB.init).2
     = [(ItemDB.create 1700000000 notebook ItemDB.init).1].
Proof.
  split; [apply ItemDB_init_wf|].
  destruct (ItemDB_create_spec 1700000000 notebook ItemDB.init ItemDB_init_wf)
    as (_ & _ & Hget & _ & Hlist & _).
  split; [exact Hget|exact Hlist].
Defined.

(** [UserDB_to_read_agrees] on the empty in-memory repository. *)
Lemma UserDB_to_read_agrees_sample :
  UserDB_wf UserDB.init
  /\ exists created user,
       (UserDB.create hari "hash" UserDB.init).1 = Ok created
       /\ UserRead.id created = 1
       /\ UserDB.to_read "hari" user (UserDB.create hari "hash" UserDB.init).2
          = Ok created.
Proof.
  split; [reflexivity|].
  destruct (UserDB_to_read_agrees hari "hash" UserDB.init _ UserDB_init_wf eq_refl)
    as (_ & user & _ & _ & Hread & _).
  eexists _, user. split; [reflexivity|]. split; [reflexivity|exact Hread].
Defined.



(** [signup_then_login] for the documented signup on the empty store,
    with the hasher that keeps the secret. *)
Lemma signup_then_login_sample :
  let db' := (signup (H := plain_primitives) "salt" hari empty_db).2 in
  exists token,
    login_for_access_token (H := plain_primitives)
      {| form_username := "hari"; form_password := "haridx"; form_scopes := [] |}
      db' 1000 = Ok {| access_token := token; token_type := "bearer" |}
    /\ UserInDB.username
         <$> get_current_user (H := plain_primitives) [] token db' 1001
       = Ok "hari".
Proof.
  intros db'.
  destruct (signup_then_login (H := plain_primitives) "salt" hari empty_db [] 1000
              "haridx")
    as (_ & _ & (token & claims & Hlogin & Hlive & _) & _).
  - reflexivity.
  - reflexivity.
  - intros Hin. by apply elem_of_nil in Hin.
  - exists token. split; [exact Hlogin|].
    destruct (Hlive 1001) as [_ Hme]; [discriminate|]. fold db' in Hme.
    by rewrite Hme.
Defined.

(** The rate-limit identity on the sample reading of tokens: a request
    with a bearer token that does not decode, and one without a header,
    are counted by address. *)
Example user_identifier_sample :
  _user_identifier (H := sample_primitives) (H0 := sample_wire)
    {| request_headers := {[ "Authorization" := "Bearer abc" ]};
       request_client_host := Some "10.0.0.7";
       request_url_path := "/api/v2/store/items" |} 1000
  = "ip:10.0.0.7:/api/v2/store/items"
  /\ _user_identifier (H := sample_primitives) (H0 := sample_wire)
       {| request_headers := ∅; request_client_host := None;
          request_url_path := "/" |} 1000
     = "ip:unknown:/".
Proof. split; reflexivity. Qed.
